(** * PyResearch: the singleton metaclasses of [singleton/singleton.py]

    A shallow embedding of [SingletonMeta], [HardSingleton],
    [SoftSingletonV1] and [SoftSingletonV2], together with the part of the
    Python object protocol they rely on (two-phase construction through
    [type.__call__], finalisation through [__del__], weak references), and
    the properties the specification states about them.

    Python code that reads and writes interpreter state is a function
    [state -> outcome A]; the metaclass helpers that build closures are
    higher-order functions, exactly as in the source.

    The two utilities of the repository follow: [TimeTracker] of
    [debug/timemanager.py], over an abstract arithmetic of times, and
    [SimpleWorker] of [worker.py], whose loop is run against a schedule of
    what the other threads have done by the end of each sleep. *)

From stdpp Require Import base option list gmap.
From stdpp Require Import strings.

Set Default Proof Using "Type".

(** ** Values, objects and the interpreter state *)

Abbreviation class_id := nat (only parsing).
Abbreviation obj_id := nat (only parsing).
Abbreviation args := nat (only parsing).

(** What a call can hand back to Python code here: [None] or an object. *)
Inductive pyval :=
| PyNone
| PyObj (o : obj_id).

(** An object remembers its [__class__] and whether it has been
    deallocated.  Identity is the position in the heap. *)
Record object := Object { obj_class : class_id; obj_alive : bool }.

(** [weakref.ref]: a non-owning handle on an object. *)
Abbreviation weakref := nat (only parsing).

(** Class-level attributes the three metaclasses plant on a class.  Inside a
    class body [__x] is mangled with the name of that class, so the three
    metaclasses use distinct attributes.  [None] is "attribute absent". *)
Record class_attrs := ClassAttrs {
  HardSingleton__has_instance : option bool;
  SoftSingletonV1__object_ref : option (option weakref);
  SoftSingletonV2__object_ref : option (option weakref);
  SoftSingletonV2__not_init : option bool
}.

Definition no_attrs : class_attrs := ClassAttrs None None None None.

(** Calls that reach the user's own [__init__] and [__del__]. *)
Inductive event :=
| InitCalled (self : obj_id) (a : args)
| DelCalled (self : obj_id).

Record state := State {
  heap : list object;
  classes : gmap nat class_attrs;
  trace : list event
}.

(** ** Exceptions *)

Inductive exn_class :=
| BaseException
| Exception
| SingletonError
| AttributeError
| TypeError
| NameError
| SystemError.

(** The base named in each class statement; [SingletonError] is declared
    as [class SingletonError(BaseException)]. *)
Definition exn_base (e : exn_class) : option exn_class :=
  match e with
  | BaseException => None
  | Exception => Some BaseException
  | SingletonError => Some BaseException
  | AttributeError => Some Exception
  | TypeError => Some Exception
  | NameError => Some Exception
  | SystemError => Some Exception
  end.

Definition exn_class_eqb (a b : exn_class) : bool :=
  match a, b with
  | BaseException, BaseException | Exception, Exception
  | SingletonError, SingletonError | AttributeError, AttributeError
  | TypeError, TypeError | NameError, NameError
  | SystemError, SystemError => true
  | _, _ => false
  end.

(** [issubclass e handler]: walk the chain of bases ([fuel] bounds the
    walk; the hierarchy above has depth three). *)
Fixpoint exn_issubclass_fuel (fuel : nat) (e handler : exn_class) : bool :=
  exn_class_eqb e handler ||
  match fuel with
  | 0 => false
  | S fuel' =>
      match exn_base e with
      | Some b => exn_issubclass_fuel fuel' b handler
      | None => false
      end
  end.

Definition exn_issubclass : exn_class -> exn_class -> bool :=
  exn_issubclass_fuel 3.

(** A raised exception: its class and, for [SingletonError(cls.__name__)],
    the class named in the message. *)
Record exn := Exn { exn_type : exn_class; exn_class_name : option class_id }.

(** ** The monad of Python computations *)

Inductive outcome (A : Type) :=
| Return (a : A) (st : state)
| Raise (e : exn) (st : state).
Arguments Return {A} a st.
Arguments Raise {A} e st.

Definition py (A : Type) : Type := state -> outcome A.

Definition ret {A} (a : A) : py A := fun st => Return a st.
Definition raise {A} (e : exn) : py A := fun st => Raise e st.
Definition bind {A B} (m : py A) (k : A -> py B) : py B :=
  fun st =>
    match m st with
    | Return a st' => k a st'
    | Raise e st' => Raise e st'
    end.

Notation "x <- m ;; k" := (bind m (fun x => k))
  (at level 100, m at next level, right associativity).
Notation "m ;;; k" := (bind m (fun _ => k))
  (at level 100, right associativity).

(** [try: body except handler: on_catch]. *)
Definition try_except {A} (body : py A) (handler : exn_class)
    (on_catch : exn -> py A) : py A :=
  fun st =>
    match body st with
    | Return a st' => Return a st'
    | Raise e st' =>
        if exn_issubclass (exn_type e) handler then on_catch e st'
        else Raise e st'
    end.

Definition final_state {A} (r : outcome A) : state :=
  match r with
  | Return _ st => st
  | Raise _ st => st
  end.

(** ** Primitive operations of the interpreter *)

Definition set_heap (h : list object) (st : state) : state :=
  State h (classes st) (trace st).
Definition set_classes (c : gmap nat class_attrs) (st : state) : state :=
  State (heap st) c (trace st).
Definition log (e : event) (st : state) : state :=
  State (heap st) (classes st) (trace st ++ [e]).

(** [object.__new__(cls)]: a fresh object of class [cls]. *)
Definition object_new (cls : class_id) : py pyval :=
  fun st =>
    Return (PyObj (length (heap st)))
           (set_heap (heap st ++ [Object cls true]) st).

(** [self.__class__].  Python code cannot hold a reference to an object
    that was never allocated; the model answers [SystemError] there. *)
Definition getclass (self : obj_id) : py class_id :=
  fun st =>
    match heap st !! self with
    | Some ob => Return (obj_class ob) st
    | None => Raise (Exn SystemError None) st
    end.

(** [ref(obj)]; [None] cannot be weakly referenced. *)
Definition ref (obj : pyval) : py weakref :=
  match obj with
  | PyObj o => ret o
  | PyNone => raise (Exn TypeError None)
  end.

(** Resolving a weak reference: the referent while it is alive, [None]
    afterwards. *)
Definition resolve (w : weakref) (st : state) : pyval :=
  match heap st !! w with
  | Some ob => if obj_alive ob then PyObj w else PyNone
  | None => PyNone
  end.

Definition call_ref (w : weakref) : py pyval :=
  fun st => Return (resolve w st) st.

(** Class attribute access, [cls.attr] and [cls.attr = v]. *)
Definition class_dict (cls : class_id) (st : state) : class_attrs :=
  default no_attrs (classes st !! cls).

Definition getattr {A} (field : class_attrs -> option A) (cls : class_id)
    : py A :=
  fun st =>
    match field (class_dict cls st) with
    | Some v => Return v st
    | None => Raise (Exn AttributeError None) st
    end.

Definition with_class_dict (cls : class_id) (d : class_attrs) (st : state)
    : state :=
  set_classes (<[cls := d]> (classes st)) st.

Definition setattr (upd : class_attrs -> class_attrs) (cls : class_id)
    : py unit :=
  fun st => Return tt (with_class_dict cls (upd (class_dict cls st)) st).

Definition set_has_instance (b : bool) (d : class_attrs) : class_attrs :=
  ClassAttrs (Some b) (SoftSingletonV1__object_ref d)
             (SoftSingletonV2__object_ref d) (SoftSingletonV2__not_init d).
Definition set_object_ref_v1 (r : option weakref) (d : class_attrs)
    : class_attrs :=
  ClassAttrs (HardSingleton__has_instance d) (Some r)
             (SoftSingletonV2__object_ref d) (SoftSingletonV2__not_init d).
Definition set_object_ref_v2 (r : option weakref) (d : class_attrs)
    : class_attrs :=
  ClassAttrs (HardSingleton__has_instance d) (SoftSingletonV1__object_ref d)
             (Some r) (SoftSingletonV2__not_init d).
Definition set_not_init (b : bool) (d : class_attrs) : class_attrs :=
  ClassAttrs (HardSingleton__has_instance d) (SoftSingletonV1__object_ref d)
             (SoftSingletonV2__object_ref d) (Some b).

(** ** Methods and classes *)

Definition new_fn : Type := class_id -> args -> py pyval.
Definition init_fn : Type := obj_id -> args -> py unit.
Definition del_fn : Type := obj_id -> py unit.

(** What attribute lookup on a class finds for the three special methods.
    [slot_new = None] is [object.__new__]; [slot_del = None] is
    "no [__del__] anywhere in the MRO". *)
Record slots := Slots {
  slot_new : option new_fn;
  slot_init : init_fn;
  slot_del : option del_fn
}.

(** A class as a metaclass returns it: its special methods and the
    attributes planted in its own [__dict__]. *)
Record class_obj := Class { cls_slots : slots; cls_dict : class_attrs }.

(** ** [SingletonMeta] *)

Module SingletonMeta.

Definition _original_new (cls : slots) : new_fn :=
  match slot_new cls with
  | Some f => f
  | None => fun cls _ => object_new cls
  end.

Definition _original_init (cls : slots) : init_fn := slot_init cls.

Definition _original_del (cls : slots) : option del_fn := slot_del cls.

Definition _set_methods (_new_ : new_fn) (_init_ : init_fn)
    (_del_ : del_fn) : slots :=
  Slots (Some _new_) _init_ (Some _del_).

Definition _create_singleton__new__ (singleton_cls : class_id)
    (orig_new modified_new : new_fn) : new_fn :=
  fun cls a =>
    if decide (cls = singleton_cls) then modified_new cls a
    else orig_new cls a.

Definition _create_singleton__init__ (singleton_cls : class_id)
    (orig_init modified_init : init_fn) : init_fn :=
  fun self a =>
    c <- getclass self ;;
    if decide (c = singleton_cls) then modified_init self a
    else orig_init self a.

Definition _create_singleton__del__ (singleton_cls : class_id)
    (orig_del : option del_fn) (modified_del : del_fn) : del_fn :=
  match orig_del with
  | Some orig_del =>
      fun self =>
        c <- getclass self ;;
        if decide (c = singleton_cls) then modified_del self
        else orig_del self
  | None =>
      fun self =>
        c <- getclass self ;;
        if decide (c = singleton_cls) then modified_del self
        else ret tt
  end.

End SingletonMeta.

(** ** [HardSingleton] *)

Module HardSingleton.
Import SingletonMeta.

Definition _new_ (orig_new : new_fn) : new_fn :=
  fun cls a =>
    has <- getattr HardSingleton__has_instance cls ;;
    if (has : bool) then raise (Exn SingletonError (Some cls))
    else (setattr (set_has_instance true) cls ;;;
          orig_new cls a).

Definition _del_ (orig_del : option del_fn) : del_fn :=
  match orig_del with
  | Some orig_del =>
      fun self =>
        c <- getclass self ;;
        setattr (set_has_instance false) c ;;;
        orig_del self
  | None =>
      fun self =>
        c <- getclass self ;;
        setattr (set_has_instance false) c
  end.

Definition __new__ (singleton_cls : class_id) (cls : slots) : class_obj :=
  let orig_new := _original_new cls in
  let orig_init := _original_init cls in
  let orig_del := _original_del cls in
  let singleton_new :=
    _create_singleton__new__ singleton_cls orig_new (_new_ orig_new) in
  let singleton_del :=
    _create_singleton__del__ singleton_cls orig_del (_del_ orig_del) in
  Class (_set_methods singleton_new orig_init singleton_del)
        (set_has_instance false no_attrs).

End HardSingleton.

(** ** [SoftSingletonV1] *)

Module SoftSingletonV1.
Import SingletonMeta.

Definition _new_ (orig_new : new_fn) : new_fn :=
  fun cls a =>
    r <- getattr SoftSingletonV1__object_ref cls ;;
    match (r : option weakref) with
    | None =>
        obj <- orig_new cls a ;;
        w <- ref obj ;;
        setattr (set_object_ref_v1 (Some w)) cls
    | Some _ => ret tt
    end ;;;
    r' <- getattr SoftSingletonV1__object_ref cls ;;
    match (r' : option weakref) with
    | Some w => call_ref w
    | None => raise (Exn TypeError None)
    end.

Definition _del_ (orig_del : option del_fn) : del_fn :=
  match orig_del with
  | Some orig_del =>
      fun self =>
        c <- getclass self ;;
        setattr (set_object_ref_v1 None) c ;;;
        orig_del self
  | None =>
      fun self =>
        c <- getclass self ;;
        setattr (set_object_ref_v1 None) c
  end.

Definition __new__ (singleton_cls : class_id) (cls : slots) : class_obj :=
  let orig_new := _original_new cls in
  let orig_init := _original_init cls in
  let orig_del := _original_del cls in
  let singleton_new :=
    _create_singleton__new__ singleton_cls orig_new (_new_ orig_new) in
  let singleton_del :=
    _create_singleton__del__ singleton_cls orig_del (_del_ orig_del) in
  Class (_set_methods singleton_new orig_init singleton_del)
        (set_object_ref_v1 None no_attrs).

End SoftSingletonV1.

(** ** [SoftSingletonV2] *)

Module SoftSingletonV2.
Import SingletonMeta.

Definition _new_ (orig_new : new_fn) : new_fn :=
  fun cls a =>
    r <- getattr SoftSingletonV2__object_ref cls ;;
    match (r : option weakref) with
    | None =>
        obj <- orig_new cls a ;;
        w <- ref obj ;;
        setattr (set_object_ref_v2 (Some w)) cls
    | Some _ => ret tt
    end ;;;
    r' <- getattr SoftSingletonV2__object_ref cls ;;
    match (r' : option weakref) with
    | Some w => call_ref w
    | None => raise (Exn TypeError None)
    end.

Definition _init_ (orig_init : init_fn) : init_fn :=
  fun self a =>
    c <- getclass self ;;
    not_init <- getattr SoftSingletonV2__not_init c ;;
    if (not_init : bool) then
      (orig_init self a ;;;
       c' <- getclass self ;;
       setattr (set_not_init false) c')
    else ret tt.

Definition _del_ (orig_del : option del_fn) : del_fn :=
  match orig_del with
  | Some orig_del =>
      fun self =>
        c <- getclass self ;;
        setattr (set_object_ref_v2 None) c ;;;
        c' <- getclass self ;;
        setattr (set_not_init true) c' ;;;
        orig_del self
  | None =>
      fun self =>
        c <- getclass self ;;
        setattr (set_object_ref_v2 None) c ;;;
        c' <- getclass self ;;
        setattr (set_not_init true) c'
  end.

Definition __new__ (singleton_cls : class_id) (cls : slots) : class_obj :=
  let orig_new := _original_new cls in
  let orig_init := _original_init cls in
  let orig_del := _original_del cls in
  let singleton_new :=
    _create_singleton__new__ singleton_cls orig_new (_new_ orig_new) in
  let singleton_init :=
    _create_singleton__init__ singleton_cls orig_init (_init_ orig_init) in
  let singleton_del :=
    _create_singleton__del__ singleton_cls orig_del (_del_ orig_del) in
  Class (_set_methods singleton_new singleton_init singleton_del)
        (set_not_init true (set_object_ref_v2 None no_attrs)).

End SoftSingletonV2.

(** ** The host's object protocol *)

(** Calling whatever [cls.__new__] and [cls.__del__] resolve to. *)
Definition call_new (s : slots) : new_fn :=
  match slot_new s with
  | Some f => f
  | None => fun cls _ => object_new cls
  end.

Definition call_del (s : slots) : del_fn :=
  match slot_del s with
  | Some f => f
  | None => fun _ => ret tt
  end.

(** The three metaclasses of the module. *)
Inductive metaclass := Hard | SoftV1 | SoftV2.

Definition metaclass_new (mcs : metaclass) : class_id -> slots -> class_obj :=
  match mcs with
  | Hard => HardSingleton.__new__
  | SoftV1 => SoftSingletonV1.__new__
  | SoftV2 => SoftSingletonV2.__new__
  end.

(** The [_new_] closure each metaclass builds over the captured original. *)
Definition policy_new (mcs : metaclass) : new_fn -> new_fn :=
  match mcs with
  | Hard => HardSingleton._new_
  | SoftV1 => SoftSingletonV1._new_
  | SoftV2 => SoftSingletonV2._new_
  end.

(** The user's own methods only leave a mark in the trace. *)
Definition user_init : init_fn :=
  fun self a st => Return tt (log (InitCalled self a) st).

Definition user_del : del_fn :=
  fun self st => Return tt (log (DelCalled self) st).

(** The object dies: weak references to it stop resolving. *)
Definition kill (o : obj_id) (st : state) : state :=
  set_heap (alter (fun ob => Object (obj_class ob) false) o (heap st)) st.

(** A program declares a hierarchy under one metaclass:

      class C0(metaclass=mcs):  def __init__ ...  [def __del__ ...]
      class C1(C0): pass
      ...
      class C(n-1)(C(n-2)): pass

    The metaclass is inherited, so every class of the hierarchy goes
    through its [__new__] and gets its own attributes; class [k + 1] finds
    the methods installed on class [k] when it looks up its own. *)
Section Program.

Variable mcs : metaclass.
Variable has_del : bool.
Variable n : nat.

Definition root_body : slots :=
  Slots None user_init (if has_del then Some user_del else None).

Fixpoint class_chain (k : class_id) : class_obj :=
  metaclass_new mcs k
    match k with
    | 0 => root_body
    | S j => cls_slots (class_chain j)
    end.

(** What class [k] inherits when its class statement is executed. *)
Definition parent_slots (k : class_id) : slots :=
  match k with
  | 0 => root_body
  | S j => cls_slots (class_chain j)
  end.

Definition lookup_class (k : class_id) : option class_obj :=
  if decide (k < n) then Some (class_chain k) else None.

(** Class [c] is [cls] or derives from it. *)
Definition issubclass (c cls : class_id) : bool := bool_decide (cls ≤ c).

Definition init_state : state :=
  State [] (list_to_map ((fun k => (k, cls_dict (class_chain k))) <$> seq 0 n)) [].

(** [cls(a)], that is [type.__call__(cls, a)]: allocate through
    [cls.__new__], then run [__init__] of the result's class when the
    result is an instance of [cls]. *)
Definition type_call (cls : class_id) (a : args) : py pyval :=
  match lookup_class cls with
  | None => raise (Exn NameError None)
  | Some C =>
      obj <- call_new (cls_slots C) cls a ;;
      match obj with
      | PyNone => ret PyNone
      | PyObj o =>
          c <- getclass o ;;
          if issubclass c cls then
            match lookup_class c with
            | Some C' => slot_init (cls_slots C') o a ;;; ret obj
            | None => raise (Exn SystemError None)
            end
          else ret obj
      end
  end.

(** The last reference to [o] goes away: [__del__] runs (an exception it
    raises is reported and dropped), then the object is gone.  Nothing
    happens for an object that is already gone. *)
Definition dealloc (o : obj_id) : py unit :=
  fun st =>
    match heap st !! o with
    | Some ob =>
        if obj_alive ob then
          match lookup_class (obj_class ob) with
          | Some C => Return tt (kill o (final_state (call_del (cls_slots C) o st)))
          | None => Return tt (kill o st)
          end
        else Return tt st
    | None => Return tt st
    end.

Inductive op :=
| Construct (cls : class_id) (a : args)
| Destroy (o : obj_id).

Definition step (st : state) (x : op) : state :=
  match x with
  | Construct cls a => final_state (type_call cls a st)
  | Destroy o => final_state (dealloc o st)
  end.

Definition run (ops : list op) (st : state) : state := foldl step st ops.

(** [o] is a live instance whose exact class is [c]. *)
Definition live (st : state) (c : class_id) (o : obj_id) : Prop :=
  heap st !! o = Some (Object c true).

End Program.


(** ** The policy state of a governed class, in the specification's terms *)

(** "Empty": no instance is tracked (and, for [SoftSingletonV2], the
    initialiser has not run). *)
Definition policy_empty (mcs : metaclass) (d : class_attrs) : Prop :=
  match mcs with
  | Hard => HardSingleton__has_instance d = Some false
  | SoftV1 => SoftSingletonV1__object_ref d = Some None
  | SoftV2 =>
      SoftSingletonV2__object_ref d = Some None ∧
      SoftSingletonV2__not_init d = Some true
  end.

(** What the three [_del_] closures write. *)
Definition on_destroy (mcs : metaclass) (d : class_attrs) : class_attrs :=
  match mcs with
  | Hard => set_has_instance false d
  | SoftV1 => set_object_ref_v1 None d
  | SoftV2 => set_not_init true (set_object_ref_v2 None d)
  end.

(** The weak-handle slot of the two soft metaclasses. *)
Definition stored_handle (mcs : metaclass) (d : class_attrs)
    : option (option weakref) :=
  match mcs with
  | Hard => None
  | SoftV1 => SoftSingletonV1__object_ref d
  | SoftV2 => SoftSingletonV2__object_ref d
  end.

Definition store_handle (mcs : metaclass) (r : option weakref)
    (d : class_attrs) : class_attrs :=
  match mcs with
  | Hard => d
  | SoftV1 => set_object_ref_v1 r d
  | SoftV2 => set_object_ref_v2 r d
  end.

(** The construction rule of the two soft policies in the specification's
    words: the existing instance is handed back, with nothing allocated,
    exactly when the stored handle resolves to a live instance; in every
    other case the original [__new__] runs, a fresh handle over its result
    is stored, and that result is returned. *)
Definition soft_construct_as_specified (mcs : metaclass) (sl : slots)
    (c : class_id) (a : args) (st : state) : Prop :=
  let new := call_new (cls_slots (metaclass_new mcs c sl)) in
  let allocates :=
    ∃ o st1,
      SingletonMeta._original_new sl c a st = Return (PyObj o) st1 ∧
      new c a st =
        Return (PyObj o)
          (with_class_dict c (store_handle mcs (Some o) (class_dict c st1)) st1) in
  match stored_handle mcs (class_dict c st) with
  | Some (Some w) =>
      match resolve w st with
      | PyObj o => new c a st = Return (PyObj o) st
      | PyNone => allocates
      end
  | Some None => allocates
  | None => True
  end.

(** A class of [SoftSingletonV1] whose slot still holds a handle on an
    object that is gone. *)
Definition dangling_state : state :=
  State [Object 0 false] {[0 := set_object_ref_v1 (Some 0) no_attrs]} [].

(** ** The single-instance invariant *)

(** At most one live instance whose exact class is [c]. *)
Definition at_most_one_live (st : state) (c : class_id) : Prop :=
  ∀ o1 o2, live st c o1 → live st c o2 → o1 = o2.

(** The attributes of class [c] agree with the heap: a clear flag or an
    empty slot means that no instance of [c] is live, a stored handle
    refers to a live instance of [c], and under [SoftSingletonV2] the
    initialiser is pending exactly while the slot is empty. *)
Definition tracks (mcs : metaclass) (st : state) (c : class_id) : Prop :=
  match mcs with
  | Hard =>
      ∃ b, HardSingleton__has_instance (class_dict c st) = Some b ∧
           (b = false → ∀ o, ¬ live st c o)
  | SoftV1 =>
      ∃ r, SoftSingletonV1__object_ref (class_dict c st) = Some r ∧
           match r with
           | Some w => live st c w
           | None => ∀ o, ¬ live st c o
           end
  | SoftV2 =>
      ∃ r, SoftSingletonV2__object_ref (class_dict c st) = Some r ∧
           match r with
           | Some w =>
               live st c w ∧
               SoftSingletonV2__not_init (class_dict c st) = Some false
           | None =>
               (∀ o, ¬ live st c o) ∧
               SoftSingletonV2__not_init (class_dict c st) = Some true
           end
  end.

Definition consistent (mcs : metaclass) (n : nat) (st : state) : Prop :=
  ∀ c, c < n → tracks mcs st c ∧ at_most_one_live st c.

(** ** Counting initialiser runs *)

(** The arguments of the calls of the user's [__init__] on [o], in order. *)
Definition inits_on (o : obj_id) (t : list event) : list args :=
  omap (λ e, match e with
             | InitCalled o' a => if decide (o' = o) then Some a else None
             | DelCalled _ => None
             end) t.

(** [x] is the destruction of [o]. *)
Definition destroys (o : obj_id) (x : op) : bool :=
  match x with
  | Destroy o' => bool_decide (o' = o)
  | Construct _ _ => false
  end.

Definition keeps_alive (o : obj_id) (ops : list op) : bool :=
  forallb (λ x, negb (destroys o x)) ops.

(** ** Which class an operation concerns *)

(** The class whose policy an operation can reach: the requested class of
    a construction, the class of the object that is destroyed. *)
Definition op_class (st : state) (x : op) : option class_id :=
  match x with
  | Construct cls _ => Some cls
  | Destroy o => obj_class <$> heap st !! o
  end.

(** The arguments of the constructions of class [k] in [ops], in order. *)
Definition construct_args (k : class_id) (ops : list op) : list args :=
  omap (λ x, match x with
             | Construct cls a => if decide (cls = k) then Some a else None
             | Destroy _ => None
             end) ops.

(** Under [HardSingleton], a set flag is backed by a live instance. *)
Definition flag_means_live (n : nat) (st : state) : Prop :=
  ∀ c, c < n →
    HardSingleton__has_instance (class_dict c st) = Some true →
    ∃ o, live st c o.

(** * [debug/timemanager.py]: the time tracker *)

Module TimeTracker.

Inductive error :=
| AssertionError (msg : string)
| AttributeError (attr : string)
| KeyError (key : string)
| UserError (name : string).

(** What the class takes from its host.  Times are Python floats; the
    module only subtracts, divides, adds and multiplies them, and nothing
    below depends on what these operations compute.  [int_0] is the
    [int] [0] the accumulator starts from, the four [float_] fields are
    the values of [__FORMATS], [clock i] is what the call number [i] of
    [time()] returns and [str_of_stream] is [str] of a stream object.
    A stream is somebody else's object: [write_error id i] is the
    exception its [write] raises when it is called after [i] calls of
    [time()] (a file that has been closed, say), [None] when the call
    returns. *)
Class Runtime := {
  num : Type;
  int_0 : num;
  float_0_001 : num;
  float_1_0 : num;
  float_60_0 : num;
  float_3600_0 : num;
  num_sub : num → num → num;
  num_truediv : num → num → num;
  num_add : num → num → num;
  num_mul : num → num → num;
  clock : nat → num;
  str_of_stream : nat → string;
  write_error : nat → nat → option error
}.

(** A value offered as a stream: an object with a callable [write]
    (identified by a number), or a [str], which has no [write]. *)
Inductive stream_val :=
| File (id : nat)
| Text (s : string).

Inductive result (A : Type) :=
| Ok (a : A)
| Err (e : error).
Arguments Ok {A} a.
Arguments Err {A} e.

Section WithRuntime.

Context `{R : Runtime}.

(** The two texts the class builds with [str.format]; the numbers are
    shown rounded to [digits] places:
    "Elapsed time {time} {format}\n" and
    "Elapsed time: \nall:\n\t{time1} {format}\ncurrent:\n\t{time2} {format}\n". *)
Inductive message :=
| Elapsed (time : num) (digits : Z) (format : string)
| ElapsedAll (time1 time2 : num) (digits : Z) (format : string).

Definition __FORMATS : gmap string num :=
  {[ "ms" := float_0_001; "sec" := float_1_0;
     "min" := float_60_0; "hour" := float_3600_0 ]}.

(** An instance; [__start] and [__end] do not exist until they are set. *)
Record tracker := Tracker {
  __format : string;
  __verbose : Z;
  __round : Z;
  __stream : stream_val;
  __time : num;
  __start : option num;
  __end : option num
}.

(** Outside the instance: how often [time()] has been called, and what
    has been written to which stream. *)
Record world := World {
  time_calls : nat;
  written : list (nat * message)
}.

(** [hasattr(stream, "write") and hasattr(stream.write, "__call__")]. *)
Definition has_write (stream : stream_val) : bool :=
  match stream with
  | File _ => true
  | Text _ => false
  end.

(** [isinstance(value, int) and value in (0, 1, 2)], on an [int]. *)
Definition verbose_ok (value : Z) : bool :=
  (value =? 0)%Z || (value =? 1)%Z || (value =? 2)%Z.

(** [isinstance(value, int) and value >= 1], on an [int]. *)
Definition rounding_ok (value : Z) : bool := (1 <=? value)%Z.

Definition __init__ (time_format : string) (verbose rounding : Z)
    (stream : stream_val) : result tracker :=
  match __FORMATS !! time_format with
  | None =>
      Err (AssertionError "time_format must be a string with ms/sec/min/hour")
  | Some _ =>
      if negb (verbose_ok verbose) then
        Err (AssertionError "verbose must be a int variable 0, 1 or 2")
      else if negb (rounding_ok rounding) then
        Err (AssertionError "rounding must be a int variable >= 1")
      else if negb (has_write stream) then
        Err (AssertionError "stream must have write method")
      else
        Ok (Tracker time_format verbose rounding stream int_0 None None)
  end.

(** [time()]. *)
Definition time (w : world) : num * world :=
  (clock (time_calls w), World (S (time_calls w)) (written w)).

(** [stream.write(text)]: the stream's own [write] may raise, and then
    nothing has been written. *)
Definition write (stream : stream_val) (text : message) (w : world)
    : result world :=
  match stream with
  | File id =>
      match write_error id (time_calls w) with
      | Some e => Err e
      | None => Ok (World (time_calls w) (written w ++ [(id, text)]))
      end
  | Text _ => Err (AttributeError "write")
  end.

Definition __enter__ (self : tracker) (w : world) : tracker * world :=
  let '(now, w) := time w in
  (Tracker (__format self) (__verbose self) (__round self) (__stream self)
           (__time self) (Some now) (__end self), w).

(** A method that can fail after it has changed the instance: what is
    left of the instance and the world, and the exception if any. *)
Definition effect : Type := tracker * world * option error.

Definition __exit__ (self : tracker) (w : world) : effect :=
  let '(now, w) := time w in
  let self :=
    Tracker (__format self) (__verbose self) (__round self) (__stream self)
            (__time self) (__start self) (Some now) in
  match __start self with
  | None => (self, w, Some (AttributeError "_TimeTracker__start"))
  | Some start =>
      match __FORMATS !! __format self with
      | None => (self, w, Some (KeyError (__format self)))
      | Some factor =>
          let diff := num_truediv (num_sub now start) factor in
          let self :=
            Tracker (__format self) (__verbose self) (__round self)
                    (__stream self) (num_add (__time self) diff)
                    (__start self) (__end self) in
          if (__verbose self =? 1)%Z then
            match write (__stream self)
                    (Elapsed (__time self) (__round self) (__format self)) w with
            | Ok w => (self, w, None)
            | Err e => (self, w, Some e)
            end
          else if (__verbose self =? 2)%Z then
            match write (__stream self)
                    (ElapsedAll (__time self) diff (__round self)
                                (__format self)) w with
            | Ok w => (self, w, None)
            | Err e => (self, w, Some e)
            end
          else (self, w, None)
      end
  end.

Definition __str__ (self : tracker) : message :=
  Elapsed (__time self) (__round self) (__format self).

Definition reset (self : tracker) : tracker :=
  Tracker (__format self) (__verbose self) (__round self) (__stream self)
          int_0 (__start self) (__end self).

(** The properties: getters. *)
Definition time_getter (self : tracker) : num := __time self.
Definition format_getter (self : tracker) : string := __format self.
Definition verbose_getter (self : tracker) : Z := __verbose self.
Definition rounding_getter (self : tracker) : Z := __round self.
Definition stream_getter (self : tracker) : stream_val :=
  Text match __stream self with
       | File id => str_of_stream id
       | Text s => s
       end.

(** The properties: setters. *)
Definition format_setter (self : tracker) (new_format : string)
    : result tracker :=
  match __FORMATS !! new_format with
  | None =>
      Err (AssertionError
             "new time format must be a string with ms/sec/min/hour")
  | Some new_factor =>
      match __FORMATS !! __format self with
      | None => Err (KeyError (__format self))
      | Some factor =>
          Ok (Tracker new_format (__verbose self) (__round self)
                      (__stream self)
                      (num_mul (__time self) (num_truediv factor new_factor))
                      (__start self) (__end self))
      end
  end.

Definition verbose_setter (self : tracker) (value : Z) : result tracker :=
  if verbose_ok value then
    Ok (Tracker (__format self) value (__round self) (__stream self)
                (__time self) (__start self) (__end self))
  else Err (AssertionError "verbose must be a int variable 0, 1 or 2").

Definition rounding_setter (self : tracker) (value : Z) : result tracker :=
  if rounding_ok value then
    Ok (Tracker (__format self) (__verbose self) value (__stream self)
                (__time self) (__start self) (__end self))
  else Err (AssertionError "rounding must be a int variable >= 1").

Definition stream_setter (self : tracker) (stream : stream_val)
    : result tracker :=
  if has_write stream then
    Ok (Tracker (__format self) (__verbose self) (__round self) stream
                (__time self) (__start self) (__end self))
  else Err (AssertionError "stream must have write method").


(** What a client can do with an instance it holds. *)
Inductive call :=
| Enter
| Exit
| Reset
| SetFormat (new_format : string)
| SetVerbose (value : Z)
| SetRounding (value : Z)
| SetStream (stream : stream_val).

Definition lift (self : tracker) (w : world) (r : result tracker) : effect :=
  match r with
  | Ok self' => (self', w, None)
  | Err e => (self, w, Some e)
  end.

Definition perform (c : call) (self : tracker) (w : world) : effect :=
  match c with
  | Enter => let '(self, w) := __enter__ self w in (self, w, None)
  | Exit => __exit__ self w
  | Reset => (reset self, w, None)
  | SetFormat f => lift self w (format_setter self f)
  | SetVerbose v => lift self w (verbose_setter self v)
  | SetRounding r => lift self w (rounding_setter self r)
  | SetStream s => lift self w (stream_setter self s)
  end.

(** A client that catches what is raised and goes on. *)
Fixpoint perform_all (cs : list call) (self : tracker) (w : world)
    : tracker * world :=
  match cs with
  | [] => (self, w)
  | c :: cs =>
      let '(self, w, _) := perform c self w in perform_all cs self w
  end.

(** What [__init__] and the setters check. *)
Definition valid (self : tracker) : Prop :=
  is_Some (__FORMATS !! __format self) ∧
  verbose_ok (__verbose self) = true ∧
  rounding_ok (__round self) = true ∧
  has_write (__stream self) = true.

Definition entered (cs : list call) : bool :=
  existsb (λ c, match c with Enter => true | _ => false end) cs.

End WithRuntime.

(** Times as the expressions that compute them: a runtime in which two
    numbers are equal only when they were computed the same way. *)
Inductive expr :=
| Int0
| Literal (text : string)
| Clock (i : nat)
| Sub (a b : expr)
| TrueDiv (a b : expr)
| Add (a b : expr)
| Mul (a b : expr).

Definition symbolic : Runtime :=
  {| num := expr;
     int_0 := Int0;
     float_0_001 := Literal "0.001";
     float_1_0 := Literal "1.0";
     float_60_0 := Literal "60.0";
     float_3600_0 := Literal "3600.0";
     num_sub := Sub;
     num_truediv := TrueDiv;
     num_add := Add;
     num_mul := Mul;
     clock := Clock;
     str_of_stream := λ _, "<stream>";
     write_error := λ _ _, None |}.

(** The same, with stream [9] closed: its [write] raises [ValueError]. *)
Definition symbolic_closed : Runtime :=
  {| num := expr;
     int_0 := Int0;
     float_0_001 := Literal "0.001";
     float_1_0 := Literal "1.0";
     float_60_0 := Literal "60.0";
     float_3600_0 := Literal "3600.0";
     num_sub := Sub;
     num_truediv := TrueDiv;
     num_add := Add;
     num_mul := Mul;
     clock := Clock;
     str_of_stream := λ _, "<stream>";
     write_error :=
       λ id _, if decide (id = 9) then Some (UserError "ValueError") else None |}.

End TimeTracker.

(** * [worker.py]: the periodic worker *)

Module SimpleWorker.

(** What can be handed to the worker as [func]: a function or an object
    with [__call__] (no [__self__]), a bound method (with [__self__] and
    [__func__]), a built-in function (with [__self__], without
    [__func__]), or a callable that [ref] refuses because the object it
    would have to reference has no support for weak references.  Objects
    are numbered. *)
Inductive callable :=
| Function (f : nat)
| BoundMethod (self func : nat)
| Builtin (self : nat)
| NoWeakref (o : nat).

Inductive error :=
| AttributeError (attr : string)
| TypeError (msg : string)
| UserError (name : string).

(** Which objects are gone, and the calls made so far: the callee and
    its arguments, [None] being Python's [None]. *)
Record world := World {
  gone : gset nat;
  called : list (nat * list (option nat))
}.

Inductive outcome (A : Type) :=
| Return (a : A) (w : world)
| Raise (e : error) (w : world).
Arguments Return {A} a w.
Arguments Raise {A} e w.

(** Calling a weak reference made by [ref(o)]. *)
Definition deref (o : nat) (w : world) : option nat :=
  if decide (o ∈ gone w) then None else Some o.

(** Calling what [callee] evaluates to; [None] is not callable.  The
    callee is the user's code: the call leaves a mark, and then returns
    or raises as [behaviour] says ([None]: it returns). *)
Definition call (callee : option nat) (arguments : list (option nat))
    (behaviour : option error) (w : world) : outcome unit :=
  match callee with
  | Some f =>
      let w := World (gone w) (called w ++ [(f, arguments)]) in
      match behaviour with
      | Some e => Raise e w
      | None => Return tt w
      end
  | None => Raise (TypeError "'NoneType' object is not callable") w
  end.

(** The wrapper that is built, as a function of what the user's code
    does if it gets called. *)
Definition func_weakref : Type := option error → world → outcome bool.

Definition __get_func_weakref (func : callable) : error + func_weakref :=
  match func with
  | BoundMethod self func =>
      let obj := self in
      let method := func in
      inr (λ behaviour w,
        match deref obj w with
        | Some _ =>
            match call (deref method w) [deref obj w] behaviour w with
            | Return _ w => Return true w
            | Raise e w => Raise e w
            end
        | None => Return false w
        end)
  | Builtin _ => inl (AttributeError "__func__")
  | NoWeakref _ => inl (TypeError "cannot create weak reference")
  | Function func =>
      let method := func in
      inr (λ behaviour w,
        match deref method w with
        | Some _ =>
            match call (deref method w) [] behaviour w with
            | Return _ w => Return true w
            | Raise e w => Raise e w
            end
        | None => Return false w
        end)
  end.

Record worker := Worker {
  __interval : nat;
  __func : func_weakref;
  __stopped : bool
}.

Definition __init__ (func : callable) (interval : nat) : error + worker :=
  match __get_func_weakref func with
  | inl e => inl e
  | inr func_weakref => inr (Worker interval func_weakref false)
  end.

(** What the worker meets when a [sleep] returns.  The other threads
    have done nothing that matters here, or [kill] has assigned
    [self.__stopped = True], or the last reference to an object has gone;
    in these cases the target, if it is called now, returns.  Or nothing
    has happened and the target, if it is called now, raises. *)
Inductive event :=
| Idle
| Kill
| Collect (o : nat)
| Raises (e : error).

Definition sleep (ev : event) (self : worker) (w : world) : worker * world :=
  match ev with
  | Idle => (self, w)
  | Kill => (Worker (__interval self) (__func self) true, w)
  | Collect o => (self, World ({[o]} ∪ gone w) (called w))
  | Raises _ => (self, w)
  end.

Definition behaviour (ev : event) : option error :=
  match ev with
  | Raises e => Some e
  | _ => None
  end.

(** Where [run] stands when the schedule has been used up: it has left
    the loop, it is in the next [sleep], or an exception has left it. *)
Inductive status :=
| Exited (self : worker) (w : world)
| Sleeping (self : worker) (w : world)
| Crashed (e : error) (self : worker) (w : world).

Fixpoint run (schedule : list event) (self : worker) (w : world) : status :=
  match schedule with
  | [] => Sleeping self w
  | ev :: schedule =>
      let '(self, w) := sleep ev self w in
      if __stopped self then
        Exited (Worker (__interval self) (__func self) true) w
      else
        match __func self (behaviour ev) w with
        | Return true w => run schedule self w
        | Return false w =>
            Exited (Worker (__interval self) (__func self) true) w
        | Raise e w => Crashed e self w
        end
  end.

(** The object whose death ends the loop, the objects a call needs, and
    the call the worker makes. *)
Definition watched (func : callable) : nat :=
  match func with
  | Function f => f
  | BoundMethod self _ => self
  | Builtin self => self
  | NoWeakref o => o
  end.

Definition needed (func : callable) : list nat :=
  match func with
  | Function f => [f]
  | BoundMethod self f => [self; f]
  | Builtin self => [self]
  | NoWeakref o => [o]
  end.

Definition the_call (func : callable) : nat * list (option nat) :=
  match func with
  | Function f => (f, [])
  | BoundMethod self f => (f, [Some self])
  | Builtin self => (self, [])
  | NoWeakref o => (o, [])
  end.

(** A wake-up at which the worker has not been told to stop, every object
    the call needs is still there and the call returns; a wake-up that
    makes the loop leave by its [break]. *)
Definition harmless (func : callable) (ev : event) : bool :=
  match ev with
  | Idle => true
  | Kill => false
  | Collect o => bool_decide (o ∉ needed func)
  | Raises _ => false
  end.

Definition ending (func : callable) (ev : event) : bool :=
  match ev with
  | Idle => false
  | Kill => true
  | Collect o => bool_decide (o = watched func)
  | Raises _ => false
  end.

End SimpleWorker.

(** * Properties *)

(** ** Bookkeeping on states *)

Lemma class_dict_with_class_dict c d st :
  class_dict c (with_class_dict c d st) = d.
Proof. unfold class_dict, with_class_dict; simpl. by rewrite lookup_insert_eq. Qed.

Lemma class_dict_with_class_dict_ne c c' d st :
  c ≠ c' → class_dict c' (with_class_dict c d st) = class_dict c' st.
Proof.
  intros Hne. unfold class_dict, with_class_dict; simpl.
  by rewrite lookup_insert_ne.
Qed.

Lemma with_class_dict_twice c d d' st :
  with_class_dict c d' (with_class_dict c d st) = with_class_dict c d' st.
Proof.
  unfold with_class_dict, set_classes; simpl. by rewrite insert_insert_eq.
Qed.

Lemma with_class_dict_id c st :
  classes st !! c = Some (class_dict c st) →
  with_class_dict c (class_dict c st) st = st.
Proof.
  intros H. destruct st as [h m t]. unfold with_class_dict, set_classes; simpl in *.
  f_equal. by apply insert_id.
Qed.

Lemma class_dict_log c e st : class_dict c (log e st) = class_dict c st.
Proof. reflexivity. Qed.

Lemma class_dict_set_heap c h st : class_dict c (set_heap h st) = class_dict c st.
Proof. reflexivity. Qed.

Lemma resolve_with_class_dict w c d st :
  resolve w (with_class_dict c d st) = resolve w st.
Proof. reflexivity. Qed.

(** An attribute that is present lives in a dictionary that is present. *)
Lemma class_dict_present {A} (field : class_attrs → option A) c st v :
  field no_attrs = None →
  field (class_dict c st) = Some v →
  classes st !! c = Some (class_dict c st).
Proof.
  unfold class_dict. intros Hno Hf.
  destruct (classes st !! c); simpl in *; [done | congruence].
Qed.

Lemma getclass_eq self ob st :
  heap st !! self = Some ob → getclass self st = Return (obj_class ob) st.
Proof. unfold getclass. by intros ->. Qed.

Ltac gate_here := rewrite decide_True by reflexivity.
Ltac gate_away := rewrite decide_False by (congruence || lia).

(** Unfolding the methods a metaclass installs. *)
Ltac installed :=
  unfold call_new, call_del, metaclass_new,
    HardSingleton.__new__, SoftSingletonV1.__new__, SoftSingletonV2.__new__,
    SingletonMeta._set_methods, SingletonMeta._create_singleton__new__,
    SingletonMeta._create_singleton__init__,
    SingletonMeta._create_singleton__del__, SingletonMeta._original_del,
    SingletonMeta._original_init;
  cbn [cls_slots slot_new slot_init slot_del].

(** ** Construction under [HardSingleton] *)

Lemma hard_new_eq (orig_new : new_fn) (c : class_id) (a : args) (st : state)
    (has : bool) :
  HardSingleton__has_instance (class_dict c st) = Some has →
  HardSingleton._new_ orig_new c a st =
    if has then Raise (Exn SingletonError (Some c)) st
    else orig_new c a
           (with_class_dict c (set_has_instance true (class_dict c st)) st).
Proof.
  intros Hflag. unfold HardSingleton._new_, bind, getattr. rewrite Hflag.
  by destruct has.
Qed.

(** C2.  On a class created by [HardSingleton], a construction request for
    that very class reads [__has_instance].  When the flag is set the call
    raises [SingletonError] and the state is exactly what it was: nothing is
    allocated and the flag is untouched.  When the flag is clear, the flag
    is set first, then the captured original [__new__] runs in that state
    and its result is the result of the call. *)
Theorem hard_on_construct (sl : slots) (c : class_id) (a : args) (st : state)
    (has : bool) :
  HardSingleton__has_instance (class_dict c st) = Some has →
  call_new (cls_slots (HardSingleton.__new__ c sl)) c a st =
    if has then Raise (Exn SingletonError (Some c)) st
    else SingletonMeta._original_new sl c a
           (with_class_dict c (set_has_instance true (class_dict c st)) st).
Proof.
  intros Hflag. installed. gate_here. by apply hard_new_eq.
Qed.

Lemma hard_on_construct_witness :
  let live_st := State [Object 0 true] {[0 := set_has_instance true no_attrs]} [] in
  let free_st := State [] {[0 := set_has_instance false no_attrs]} [] in
  call_new (cls_slots (HardSingleton.__new__ 0 (root_body false))) 0 7 live_st
    = Raise (Exn SingletonError (Some 0)) live_st ∧
  call_new (cls_slots (HardSingleton.__new__ 0 (root_body false))) 0 7 free_st
    = Return (PyObj 0)
        (State [Object 0 true] {[0 := set_has_instance true no_attrs]} []).
Proof.
  split.
  - apply (hard_on_construct (root_body false) 0 7 _ true). reflexivity.
  - rewrite (hard_on_construct (root_body false) 0 7 _ false) by reflexivity.
    vm_compute. reflexivity.
Defined.

(** ** Construction under the soft metaclasses *)

Lemma installed_new_here (mcs : metaclass) (c : class_id) (sl : slots)
    (a : args) (st : state) :
  call_new (cls_slots (metaclass_new mcs c sl)) c a st
    = policy_new mcs (SingletonMeta._original_new sl) c a st.
Proof. destruct mcs; installed; by gate_here. Qed.

Lemma soft_new_held (mcs : metaclass) (orig_new : new_fn) (c : class_id)
    (a : args) (st : state) (w : weakref) :
  stored_handle mcs (class_dict c st) = Some (Some w) →
  policy_new mcs orig_new c a st = Return (resolve w st) st.
Proof.
  intros Hslot. destruct mcs; [done | |]; cbn [stored_handle policy_new] in *.
  - unfold SoftSingletonV1._new_, bind, getattr, ret, call_ref.
    rewrite Hslot; cbn. by rewrite Hslot.
  - unfold SoftSingletonV2._new_, bind, getattr, ret, call_ref.
    rewrite Hslot; cbn. by rewrite Hslot.
Qed.

Lemma soft_new_free (mcs : metaclass) (orig_new : new_fn) (c : class_id)
    (a : args) (st st1 : state) (o : obj_id) :
  stored_handle mcs (class_dict c st) = Some None →
  orig_new c a st = Return (PyObj o) st1 →
  resolve o st1 = PyObj o →
  policy_new mcs orig_new c a st =
    Return (PyObj o)
      (with_class_dict c (store_handle mcs (Some o) (class_dict c st1)) st1).
Proof.
  intros Hslot Hnew Hlive.
  destruct mcs; [done | |]; cbn [stored_handle policy_new store_handle] in *.
  - unfold SoftSingletonV1._new_.
    unfold bind at 1 2. unfold getattr at 1. rewrite Hslot.
    unfold bind at 1. rewrite Hnew. simpl.
    unfold bind, setattr, getattr, call_ref.
    rewrite class_dict_with_class_dict. simpl.
    by rewrite resolve_with_class_dict, Hlive.
  - unfold SoftSingletonV2._new_.
    unfold bind at 1 2. unfold getattr at 1. rewrite Hslot.
    unfold bind at 1. rewrite Hnew. simpl.
    unfold bind, setattr, getattr, call_ref.
    rewrite class_dict_with_class_dict. simpl.
    by rewrite resolve_with_class_dict, Hlive.
Qed.

(** C3, as the code has it.  [_new_] of [SoftSingletonV1] and
    [SoftSingletonV2] decides on the slot, not on what the handle resolves
    to.  With a handle stored, nothing is allocated, the state is unchanged
    and the call returns what the handle resolves to: the live instance
    whenever the referent is alive.  With the slot empty, the original
    [__new__] runs, a handle over its result is stored in the state it left,
    and the new instance is returned. *)
Theorem soft_on_construct (mcs : metaclass) (sl : slots) (c : class_id)
    (a : args) (st : state) (r : option weakref) :
  mcs ≠ Hard →
  stored_handle mcs (class_dict c st) = Some r →
  match r with
  | Some w =>
      call_new (cls_slots (metaclass_new mcs c sl)) c a st
        = Return (resolve w st) st
  | None =>
      ∀ o st1,
        SingletonMeta._original_new sl c a st = Return (PyObj o) st1 →
        resolve o st1 = PyObj o →
        call_new (cls_slots (metaclass_new mcs c sl)) c a st
          = Return (PyObj o)
              (with_class_dict c (store_handle mcs (Some o) (class_dict c st1)) st1)
  end.
Proof.
  intros _ Hslot. destruct r as [w|].
  - rewrite installed_new_here. by apply soft_new_held.
  - intros o st1 Hnew Hlive. rewrite installed_new_here.
    by apply soft_new_free.
Qed.

Lemma soft_on_construct_witness :
  let held := State [Object 0 true] {[0 := set_object_ref_v1 (Some 0) no_attrs]} [] in
  let free := State [Object 1 true] {[0 := set_object_ref_v1 None no_attrs]} [] in
  call_new (cls_slots (metaclass_new SoftV1 0 (root_body false))) 0 7 held
    = Return (PyObj 0) held ∧
  call_new (cls_slots (metaclass_new SoftV1 0 (root_body false))) 0 7 free
    = Return (PyObj 1)
        (State [Object 1 true; Object 0 true]
               {[0 := set_object_ref_v1 (Some 1) no_attrs]} []).
Proof.
  intros held free. split.
  - exact (soft_on_construct SoftV1 (root_body false) 0 7 held (Some 0)
             ltac:(discriminate) eq_refl).
  - rewrite (soft_on_construct SoftV1 (root_body false) 0 7 free None
               ltac:(discriminate) eq_refl 1
               (State [Object 1 true; Object 0 true]
                      {[0 := set_object_ref_v1 None no_attrs]} []));
      [| reflexivity | reflexivity].
    vm_compute. reflexivity.
Defined.

(** C3, as the specification words it, fails on a slot that holds a handle
    whose referent is gone: [_new_] allocates nothing there and returns
    [None]. *)
Lemma soft_on_construct_dangling :
  call_new (cls_slots (metaclass_new SoftV1 0 (root_body false))) 0 7
      dangling_state = Return PyNone dangling_state ∧
  ¬ soft_construct_as_specified SoftV1 (root_body false) 0 7 dangling_state.
Proof.
  split; [reflexivity |].
  unfold soft_construct_as_specified. cbn.
  intros (o & st1 & _ & Hret). discriminate Hret.
Qed.

(** Such a slot arises without the class ever seeing its instance die:
    a user [__new__] that hands back an object of another class ([9]
    here) makes [_new_] store a handle on that object, and its death does
    not go through the [__del__] installed on class [0]. *)
Remark soft_dangling_slot_arises :
  let sl := Slots (Some (λ _ _, object_new 9)) user_init None in
  let C := metaclass_new SoftV1 0 sl in
  let st0 := State [] {[0 := cls_dict C]} [] in
  let st1 := final_state (call_new (cls_slots C) 0 7 st0) in
  call_new (cls_slots C) 0 7 st0 = Return (PyObj 0) st1 ∧
  SoftSingletonV1__object_ref (class_dict 0 (kill 0 st1)) = Some (Some 0) ∧
  resolve 0 (kill 0 st1) = PyNone ∧
  call_new (cls_slots C) 0 7 (kill 0 st1) = Return PyNone (kill 0 st1).
Proof. repeat split. Qed.

(** ** Exact-type gating *)



(** ** Destruction *)

Lemma installed_del_eq (mcs : metaclass) (c : class_id) (sl : slots)
    (self : obj_id) (ob : object) (st : state) :
  heap st !! self = Some ob →
  obj_class ob = c →
  call_del (cls_slots (metaclass_new mcs c sl)) self st =
    match SingletonMeta._original_del sl with
    | Some orig_del =>
        orig_del self (with_class_dict c (on_destroy mcs (class_dict c st)) st)
    | None =>
        Return tt (with_class_dict c (on_destroy mcs (class_dict c st)) st)
    end.
Proof.
  intros Hself <-.
  destruct mcs; installed; destruct (slot_del sl) as [orig_del|];
    unfold bind; rewrite (getclass_eq _ _ _ Hself); gate_here;
    unfold HardSingleton._del_, SoftSingletonV1._del_, SoftSingletonV2._del_,
      bind, setattr, on_destroy;
    rewrite (getclass_eq _ _ _ Hself);
    try reflexivity;
    (erewrite getclass_eq by exact Hself);
    by rewrite class_dict_with_class_dict, with_class_dict_twice.
Qed.


Lemma on_destroy_empty (mcs : metaclass) (d : class_attrs) :
  policy_empty mcs (on_destroy mcs d).
Proof. by destruct mcs. Qed.

Lemma on_destroy_id (mcs : metaclass) (d : class_attrs) :
  policy_empty mcs d → on_destroy mcs d = d.
Proof.
  destruct d as [h r1 r2 ni], mcs; simpl.
  - by intros ->.
  - by intros ->.
  - by intros [-> ->].
Qed.

Lemma policy_empty_present (mcs : metaclass) (c : class_id) (st : state) :
  policy_empty mcs (class_dict c st) →
  classes st !! c = Some (class_dict c st).
Proof.
  destruct mcs; simpl.
  - by apply class_dict_present.
  - by apply class_dict_present.
  - intros [H _]. by apply (class_dict_present _ _ _ _ eq_refl H).
Qed.

(** C5.  When an instance whose exact class is the governed class is
    finalised, the installed [__del__] first writes the cleared policy
    state and only then hands over to the original [__del__], if the class
    had one when the metaclass captured it: the original runs on a state in
    which the class is already empty, and what it returns is the outcome of
    the call.  This holds for all three metaclasses. *)
Theorem destroy_clears_then_tears_down (mcs : metaclass) (c : class_id)
    (sl : slots) (self : obj_id) (ob : object) (st : state) :
  heap st !! self = Some ob →
  obj_class ob = c →
  let cleared := with_class_dict c (on_destroy mcs (class_dict c st)) st in
  policy_empty mcs (class_dict c cleared) ∧
  call_del (cls_slots (metaclass_new mcs c sl)) self st =
    match SingletonMeta._original_del sl with
    | Some orig_del => orig_del self cleared
    | None => Return tt cleared
    end.
Proof.
  intros Hself Hcls cleared. split.
  - unfold cleared. rewrite class_dict_with_class_dict. apply on_destroy_empty.
  - by apply installed_del_eq with ob.
Qed.

Lemma destroy_clears_then_tears_down_witness :
  let st := State [Object 0 true] {[0 := set_has_instance true no_attrs]} [] in
  call_del (cls_slots (metaclass_new Hard 0 (root_body true))) 0 st
    = Return tt (State [Object 0 true] {[0 := set_has_instance false no_attrs]}
                       [DelCalled 0]).
Proof.
  intros st.
  rewrite (proj2 (destroy_clears_then_tears_down Hard 0 (root_body true) 0
                    (Object 0 true) st eq_refl eq_refl)).
  vm_compute. reflexivity.
Defined.

(** C9.  Finalising through the installed [__del__] while the class tracks
    no instance adds nothing of its own: without an original [__del__] the
    call returns normally and the state, hence the empty policy state, is
    what it was; with one, the call is the original [__del__] run on the
    unchanged state. *)
Theorem destroy_on_empty (mcs : metaclass) (c : class_id) (sl : slots)
    (self : obj_id) (ob : object) (st : state) :
  heap st !! self = Some ob →
  obj_class ob = c →
  policy_empty mcs (class_dict c st) →
  call_del (cls_slots (metaclass_new mcs c sl)) self st =
    match SingletonMeta._original_del sl with
    | Some orig_del => orig_del self st
    | None => Return tt st
    end.
Proof.
  intros Hself Hcls Hempty.
  rewrite (installed_del_eq mcs c sl self ob st Hself Hcls).
  rewrite (on_destroy_id _ _ Hempty).
  by rewrite (with_class_dict_id _ _ (policy_empty_present _ _ _ Hempty)).
Qed.

Lemma destroy_on_empty_witness :
  let st := State [Object 0 true]
                  {[0 := cls_dict (metaclass_new SoftV2 0 (root_body false))]} [] in
  call_del (cls_slots (metaclass_new SoftV2 0 (root_body false))) 0 st
    = Return tt st.
Proof.
  intros st.
  apply (destroy_on_empty SoftV2 0 (root_body false) 0 (Object 0 true) st);
    [reflexivity | reflexivity | split; reflexivity].
Defined.

(** ** The exception *)

(** C10.  [SingletonError] names [BaseException] as its base, so it is not
    an [Exception]; a duplicate construction wrapped in
    [try: ... except Exception: ...] still raises, whatever the handler
    would have done, while [except BaseException] does catch it. *)
Theorem singleton_error_escapes_except_Exception (sl : slots) (c : class_id)
    (a : args) (st : state) (on_catch : exn → py pyval) :
  HardSingleton__has_instance (class_dict c st) = Some true →
  exn_base SingletonError = Some BaseException ∧
  exn_issubclass SingletonError Exception = false ∧
  try_except (call_new (cls_slots (HardSingleton.__new__ c sl)) c a)
             Exception on_catch st
    = Raise (Exn SingletonError (Some c)) st ∧
  try_except (call_new (cls_slots (HardSingleton.__new__ c sl)) c a)
             BaseException on_catch st
    = on_catch (Exn SingletonError (Some c)) st.
Proof.
  intros Hflag. repeat split.
  - unfold try_except. installed. gate_here.
    by rewrite (hard_new_eq _ c a st true Hflag).
  - unfold try_except. installed. gate_here.
    by rewrite (hard_new_eq _ c a st true Hflag).
Qed.

Lemma singleton_error_escapes_except_Exception_witness :
  let st := State [Object 0 true] {[0 := set_has_instance true no_attrs]} [] in
  try_except (call_new (cls_slots (HardSingleton.__new__ 0 (root_body false))) 0 7)
             Exception (λ _, ret PyNone) st
    = Raise (Exn SingletonError (Some 0)) st.
Proof.
  intros st.
  apply (singleton_error_escapes_except_Exception (root_body false) 0 7 st
           (λ _, ret PyNone) eq_refl).
Defined.

(** ** A hierarchy under one metaclass *)

Lemma installed_del_other (mcs : metaclass) (c : class_id) (sl : slots)
    (self : obj_id) (ob : object) (st : state) :
  heap st !! self = Some ob →
  obj_class ob ≠ c →
  call_del (cls_slots (metaclass_new mcs c sl)) self st = call_del sl self st.
Proof.
  intros Hself Hne.
  destruct mcs; installed; destruct (slot_del sl) as [orig_del|];
    unfold bind; rewrite (getclass_eq _ _ _ Hself); by gate_away.
Qed.

Lemma installed_init_other (mcs : metaclass) (c : class_id) (sl : slots)
    (self : obj_id) (a : args) (ob : object) (st : state) :
  heap st !! self = Some ob →
  obj_class ob ≠ c →
  slot_init (cls_slots (metaclass_new mcs c sl)) self a st
    = slot_init sl self a st.
Proof.
  intros Hself Hne.
  destruct mcs; installed; try reflexivity.
  unfold bind. rewrite (getclass_eq _ _ _ Hself). by gate_away.
Qed.

Lemma installed_init_plain (mcs : metaclass) (c : class_id) (sl : slots) :
  mcs ≠ SoftV2 →
  slot_init (cls_slots (metaclass_new mcs c sl))
    = SingletonMeta._original_init sl.
Proof. by destruct mcs. Qed.

Lemma installed_init_v2 (mcs : metaclass) (c : class_id) (sl : slots)
    (self : obj_id) (a : args) (ob : object) (st : state) :
  mcs = SoftV2 →
  heap st !! self = Some ob → obj_class ob = c →
  slot_init (cls_slots (metaclass_new mcs c sl)) self a st
    = SoftSingletonV2._init_ (SingletonMeta._original_init sl) self a st.
Proof.
  intros -> Hself <-. installed.
  unfold bind at 1. rewrite (getclass_eq _ _ _ Hself). by gate_here.
Qed.

Section ProgramFacts.

Variable mcs : metaclass.
Variable has_del : bool.
Variable n : nat.

Lemma lookup_class_lt k :
  k < n → lookup_class mcs has_del n k = Some (class_chain mcs has_del k).
Proof. intros Hk. unfold lookup_class. by rewrite decide_True. Qed.

Lemma lookup_class_ge k : n ≤ k → lookup_class mcs has_del n k = None.
Proof. intros Hk. unfold lookup_class. rewrite decide_False; [done | lia]. Qed.

Local Abbreviation class_chain := (class_chain mcs has_del).
Local Abbreviation parent_slots := (parent_slots mcs has_del).
Local Abbreviation root_body := (root_body has_del).

Lemma class_chain_eq k :
  class_chain k = metaclass_new mcs k (parent_slots k).
Proof. by destruct k. Qed.

(** Below its own class, every installed method falls through to what the
    root class statement defined. *)
Lemma chain_new_above k cls a st :
  k < cls → call_new (cls_slots (class_chain k)) cls a st = object_new cls st.
Proof.
  induction k as [|k IH]; intros Hlt; rewrite class_chain_eq.
  - destruct mcs; installed; by gate_away.
  - assert (call_new (cls_slots (metaclass_new mcs (S k) (parent_slots (S k))))
              cls a st = call_new (cls_slots (class_chain k)) cls a st) as ->.
    { destruct mcs; installed; by gate_away. }
    apply IH. lia.
Qed.

Lemma orig_new_at k a st :
  SingletonMeta._original_new (parent_slots k) k a st = object_new k st.
Proof.
  destruct k as [|j]; [reflexivity |].
  apply (chain_new_above j (S j)). lia.
Qed.

Lemma chain_init_above k self a ob st :
  heap st !! self = Some ob → k < obj_class ob →
  slot_init (cls_slots (class_chain k)) self a st = user_init self a st.
Proof.
  intros Hself. induction k as [|k IH]; intros Hlt; rewrite class_chain_eq;
    rewrite (installed_init_other _ _ _ _ _ _ _ Hself) by lia.
  - reflexivity.
  - apply IH. lia.
Qed.

Lemma orig_init_at k self a ob st :
  heap st !! self = Some ob → obj_class ob = k →
  SingletonMeta._original_init (parent_slots k) self a st
    = user_init self a st.
Proof.
  intros Hself Hcls. destruct k as [|j]; [reflexivity |].
  apply chain_init_above with ob; [done | lia].
Qed.

Lemma chain_del_above k self ob st :
  heap st !! self = Some ob → k < obj_class ob →
  call_del (cls_slots (class_chain k)) self st = call_del root_body self st.
Proof.
  intros Hself. induction k as [|k IH]; intros Hlt; rewrite class_chain_eq;
    rewrite (installed_del_other _ _ _ _ _ _ Hself) by lia.
  - reflexivity.
  - apply IH. lia.
Qed.

Lemma orig_del_at k self ob st :
  heap st !! self = Some ob → obj_class ob = k →
  call_del (parent_slots k) self st = call_del root_body self st.
Proof.
  intros Hself Hcls. destruct k as [|j]; [reflexivity |].
  apply chain_del_above with ob; [done | lia].
Qed.

(** [__del__] of an instance of class [k]: clear the state of [k], then
    the user's [__del__], if the root has one. *)
Lemma chain_del_at k self ob st :
  heap st !! self = Some ob → obj_class ob = k →
  call_del (cls_slots (class_chain k)) self st =
    call_del root_body self
      (with_class_dict k (on_destroy mcs (class_dict k st)) st).
Proof.
  intros Hself Hcls. rewrite class_chain_eq.
  rewrite (installed_del_eq _ _ _ _ _ _ Hself Hcls).
  etrans; [| by apply orig_del_at with ob].
  unfold SingletonMeta._original_del, call_del.
  by destruct (slot_del (parent_slots k)).
Qed.

(** [__init__] as class [k] has it, on one of its own instances. *)
Lemma chain_init_at k self a ob st :
  mcs ≠ SoftV2 →
  heap st !! self = Some ob → obj_class ob = k →
  slot_init (cls_slots (class_chain k)) self a st = user_init self a st.
Proof.
  intros Hmcs Hself Hcls. rewrite class_chain_eq.
  rewrite (installed_init_plain _ _ _ Hmcs). by apply orig_init_at with ob.
Qed.

Lemma chain_init_at_v2 k self a ob st b :
  mcs = SoftV2 →
  heap st !! self = Some ob → obj_class ob = k →
  SoftSingletonV2__not_init (class_dict k st) = Some b →
  slot_init (cls_slots (class_chain k)) self a st =
    Return tt
      (if b then
         with_class_dict k (set_not_init false (class_dict k st))
           (log (InitCalled self a) st)
       else st).
Proof.
  intros Hmcs Hself Hcls Hflag. rewrite class_chain_eq.
  rewrite (installed_init_v2 _ _ _ _ _ _ _ Hmcs Hself Hcls).
  unfold SoftSingletonV2._init_, bind.
  rewrite (getclass_eq _ _ _ Hself), Hcls.
  unfold getattr. rewrite Hflag. destruct b; [| reflexivity].
  rewrite (orig_init_at k self a ob st Hself Hcls).
  unfold user_init.
  erewrite getclass_eq by exact Hself. by rewrite Hcls.
Qed.

(** [cls(a)] once [cls.__new__] has answered. *)
Lemma type_call_returned k a st o ob st1 :
  k < n →
  call_new (cls_slots (class_chain k)) k a st = Return (PyObj o) st1 →
  heap st1 !! o = Some ob → obj_class ob = k →
  type_call mcs has_del n k a st =
    (slot_init (cls_slots (class_chain k)) o a ;;; ret (PyObj o)) st1.
Proof.
  intros Hk Hnew Ho Hcls. unfold type_call.
  rewrite (lookup_class_lt k Hk).
  unfold bind at 1. rewrite Hnew.
  unfold bind at 1. rewrite (getclass_eq _ _ _ Ho), Hcls.
  unfold issubclass. rewrite bool_decide_eq_true_2 by lia.
  by rewrite (lookup_class_lt k Hk).
Qed.

Lemma type_call_raised k a st e st1 :
  k < n →
  call_new (cls_slots (class_chain k)) k a st = Raise e st1 →
  type_call mcs has_del n k a st = Raise e st1.
Proof.
  intros Hk Hnew. unfold type_call.
  rewrite (lookup_class_lt k Hk). unfold bind. by rewrite Hnew.
Qed.

Lemma type_call_undeclared k a st :
  n ≤ k → type_call mcs has_del n k a st = Raise (Exn NameError None) st.
Proof. intros Hk. unfold type_call. by rewrite (lookup_class_ge k Hk). Qed.

Lemma new_object_lookup (h : list object) (ob : object) :
  (h ++ [ob]) !! length h = Some ob.
Proof. by apply list_lookup_middle. Qed.

(** The last reference to a live instance of class [k] goes away. *)
Lemma dealloc_live k o st :
  k < n → live st k o →
  dealloc mcs has_del n o st =
    Return tt
      (kill o
         (final_state
            (call_del root_body o
               (with_class_dict k (on_destroy mcs (class_dict k st)) st)))).
Proof.
  intros Hk Hlive. unfold dealloc. rewrite Hlive. cbn [obj_alive obj_class].
  rewrite (lookup_class_lt k Hk).
  by rewrite (chain_del_at k o _ st Hlive eq_refl).
Qed.

End ProgramFacts.

(** ** Whole construction calls, per metaclass *)

(** A fresh instance of class [k] has been allocated. *)
Lemma chain_new_at (mcs : metaclass) (has_del : bool) (k : class_id)
    (a : args) (st : state) :
  call_new (cls_slots (class_chain mcs has_del k)) k a st =
    policy_new mcs (λ cls _, object_new cls) k a st.
Proof.
  rewrite class_chain_eq, installed_new_here.
  destruct mcs; cbn [policy_new].
  - unfold HardSingleton._new_, bind.
    destruct (getattr _ k st) as [[] st'|]; try reflexivity.
    destruct (setattr _ k st'); [apply orig_new_at | reflexivity].
  - unfold SoftSingletonV1._new_, bind.
    destruct (getattr _ k st) as [[w|] st'|]; try reflexivity.
    by rewrite orig_new_at.
  - unfold SoftSingletonV2._new_, bind.
    destruct (getattr _ k st) as [[w|] st'|]; try reflexivity.
    by rewrite orig_new_at.
Qed.

Lemma hard_type_call (has_del : bool) (n : nat) (k : class_id) (a : args)
    (st : state) (has : bool) :
  k < n →
  HardSingleton__has_instance (class_dict k st) = Some has →
  type_call Hard has_del n k a st =
    if has then Raise (Exn SingletonError (Some k)) st
    else
      Return (PyObj (length (heap st)))
        (log (InitCalled (length (heap st)) a)
           (set_heap (heap st ++ [Object k true])
              (with_class_dict k (set_has_instance true (class_dict k st)) st))).
Proof.
  intros Hk Hflag.
  pose proof (chain_new_at Hard has_del k a st) as Hnew.
  cbn [policy_new] in Hnew. rewrite (hard_new_eq _ k a st has Hflag) in Hnew.
  destruct has.
  - by apply type_call_raised.
  - erewrite type_call_returned; [| done | exact Hnew | apply new_object_lookup | done].
    unfold bind.
    erewrite chain_init_at; [reflexivity | done | apply new_object_lookup | done].
Qed.

Lemma soft_v1_type_call (has_del : bool) (n : nat) (k : class_id) (a : args)
    (st : state) (r : option weakref) :
  k < n →
  SoftSingletonV1__object_ref (class_dict k st) = Some r →
  (∀ w, r = Some w → live st k w) →
  type_call SoftV1 has_del n k a st =
    match r with
    | Some w => Return (PyObj w) (log (InitCalled w a) st)
    | None =>
        Return (PyObj (length (heap st)))
          (log (InitCalled (length (heap st)) a)
             (with_class_dict k
                (set_object_ref_v1 (Some (length (heap st))) (class_dict k st))
                (set_heap (heap st ++ [Object k true]) st)))
    end.
Proof.
  intros Hk Hslot Hlive.
  pose proof (chain_new_at SoftV1 has_del k a st) as Hnew.
  destruct r as [w|].
  - specialize (Hlive w eq_refl).
    rewrite (soft_new_held SoftV1 _ k a st w Hslot) in Hnew.
    unfold resolve in Hnew. rewrite Hlive in Hnew. cbn in Hnew.
    erewrite type_call_returned; [| done | exact Hnew | exact Hlive | done].
    unfold bind.
    erewrite chain_init_at; [reflexivity | done | exact Hlive | done].
  - rewrite (soft_new_free SoftV1 _ k a st
               (set_heap (heap st ++ [Object k true]) st) (length (heap st)) Hslot)
      in Hnew; [| reflexivity |].
    2:{ unfold resolve. cbn [heap set_heap]. by rewrite new_object_lookup. }
    erewrite type_call_returned;
      [| done | exact Hnew | apply new_object_lookup | done].
    unfold bind.
    erewrite chain_init_at; [reflexivity | done | apply new_object_lookup | done].
Qed.

Lemma soft_v2_type_call (has_del : bool) (n : nat) (k : class_id) (a : args)
    (st : state) (r : option weakref) (b : bool) :
  k < n →
  SoftSingletonV2__object_ref (class_dict k st) = Some r →
  SoftSingletonV2__not_init (class_dict k st) = Some b →
  (∀ w, r = Some w → live st k w) →
  type_call SoftV2 has_del n k a st =
    match r with
    | Some w =>
        Return (PyObj w)
          (if b then
             with_class_dict k (set_not_init false (class_dict k st))
               (log (InitCalled w a) st)
           else st)
    | None =>
        let st1 :=
          with_class_dict k
            (set_object_ref_v2 (Some (length (heap st))) (class_dict k st))
            (set_heap (heap st ++ [Object k true]) st) in
        Return (PyObj (length (heap st)))
          (if b then
             with_class_dict k (set_not_init false (class_dict k st1))
               (log (InitCalled (length (heap st)) a) st1)
           else st1)
    end.
Proof.
  intros Hk Hslot Hflag Hlive.
  pose proof (chain_new_at SoftV2 has_del k a st) as Hnew.
  destruct r as [w|].
  - specialize (Hlive w eq_refl).
    rewrite (soft_new_held SoftV2 _ k a st w Hslot) in Hnew.
    unfold resolve in Hnew. rewrite Hlive in Hnew. cbn in Hnew.
    erewrite type_call_returned; [| done | exact Hnew | exact Hlive | done].
    unfold bind.
    erewrite chain_init_at_v2; [reflexivity | done | exact Hlive | done | done].
  - rewrite (soft_new_free SoftV2 _ k a st
               (set_heap (heap st ++ [Object k true]) st) (length (heap st)) Hslot)
      in Hnew; [| reflexivity |].
    2:{ unfold resolve. cbn [heap set_heap]. by rewrite new_object_lookup. }
    erewrite type_call_returned;
      [| done | exact Hnew | apply new_object_lookup | done].
    unfold bind.
    erewrite chain_init_at_v2;
      [reflexivity | done | apply new_object_lookup | done |].
    cbn [store_handle]. rewrite class_dict_with_class_dict. exact Hflag.
Qed.

(** ** Liveness under allocation and death *)

Lemma live_same_heap (st st' : state) (c : class_id) (o : obj_id) :
  heap st' = heap st → live st' c o ↔ live st c o.
Proof. unfold live. by intros ->. Qed.

Lemma live_lt (st : state) (c : class_id) (o : obj_id) :
  live st c o → o < length (heap st).
Proof. unfold live. apply lookup_lt_Some. Qed.

Lemma live_alloc (st st' : state) (k c : class_id) (o : obj_id) :
  heap st' = heap st ++ [Object k true] →
  live st' c o ↔ live st c o ∨ (c = k ∧ o = length (heap st)).
Proof.
  unfold live. intros ->. rewrite lookup_snoc_Some. split.
  - intros [[_ H] | [-> H]]; [by left |]. right. by inversion H.
  - intros [H | [-> ->]]; [left | by right].
    split; [by eapply lookup_lt_Some | done].
Qed.

Lemma live_kill (st : state) (c : class_id) (o o' : obj_id) :
  live (kill o st) c o' ↔ live st c o' ∧ o' ≠ o.
Proof.
  unfold live, kill. cbn [heap set_heap].
  destruct (decide (o = o')) as [<- | Hne].
  - rewrite list_lookup_alter_eq. split; [| by intros [_ []]].
    destruct (heap st !! o); simpl; [| done]. by intros [= ? ?].
  - rewrite list_lookup_alter_ne by done.
    split; [intros Ho'; split; [done | congruence] | by intros [Ho' _]].
Qed.

Lemma call_del_root (has_del : bool) (o : obj_id) (st : state) :
  final_state (call_del (root_body has_del) o st)
    = if has_del then log (DelCalled o) st else st.
Proof. by destruct has_del. Qed.

(** What is left when a live instance of class [k] has gone. *)
Lemma destroy_live (mcs : metaclass) (has_del : bool) (n : nat)
    (k : class_id) (o : obj_id) (st : state) :
  k < n → live st k o →
  step mcs has_del n st (Destroy o) =
    kill o
      (let cleared := with_class_dict k (on_destroy mcs (class_dict k st)) st in
       if has_del then log (DelCalled o) cleared else cleared).
Proof.
  intros Hk Hlive. cbn [step].
  rewrite (dealloc_live mcs has_del n k o st Hk Hlive). cbn [final_state].
  by rewrite call_del_root.
Qed.

Lemma destroy_live_heap (mcs : metaclass) (has_del : bool) (n : nat)
    (k : class_id) (o : obj_id) (st : state) :
  k < n → live st k o →
  heap (step mcs has_del n st (Destroy o))
    = alter (λ ob, Object (obj_class ob) false) o (heap st).
Proof. intros Hk Hlive. rewrite (destroy_live _ _ _ k) by done. by destruct has_del. Qed.

Lemma destroy_live_class_dict (mcs : metaclass) (has_del : bool) (n : nat)
    (k c : class_id) (o : obj_id) (st : state) :
  k < n → live st k o →
  class_dict c (step mcs has_del n st (Destroy o)) =
    if decide (k = c) then on_destroy mcs (class_dict k st)
    else class_dict c st.
Proof.
  intros Hk Hlive. rewrite (destroy_live _ _ _ k) by done.
  transitivity (class_dict c
    (with_class_dict k (on_destroy mcs (class_dict k st)) st)).
  { by destruct has_del. }
  case_decide as Hkc.
  - subst. apply class_dict_with_class_dict.
  - by apply class_dict_with_class_dict_ne.
Qed.

Lemma destroy_live_trace (mcs : metaclass) (has_del : bool) (n : nat)
    (k : class_id) (o : obj_id) (st : state) :
  k < n → live st k o →
  trace (step mcs has_del n st (Destroy o))
    = trace st ++ (if has_del then [DelCalled o] else []).
Proof.
  intros Hk Hlive. rewrite (destroy_live _ _ _ k) by done.
  destruct has_del; cbn; [done | by rewrite app_nil_r].
Qed.

(** ** [SoftSingletonV1]: reuse, and the initialiser on every call *)

(** C6.  Under [SoftSingletonV1] a construction call made while the class
    holds a handle on its live instance returns that very instance, a call
    made with the slot empty returns a freshly allocated one, and in both
    cases the user's [__init__] runs exactly once, on the returned instance
    and with the arguments of this call. *)
Theorem soft_v1_construct_reuses_and_initialises (has_del : bool) (n : nat)
    (k : class_id) (a : args) (st : state) (r : option weakref) :
  k < n →
  SoftSingletonV1__object_ref (class_dict k st) = Some r →
  (∀ w, r = Some w → live st k w) →
  ∃ o st',
    type_call SoftV1 has_del n k a st = Return (PyObj o) st' ∧
    o = default (length (heap st)) r ∧
    live st' k o ∧
    trace st' = trace st ++ [InitCalled o a].
Proof.
  intros Hk Hslot Hlive.
  rewrite (soft_v1_type_call has_del n k a st r Hk Hslot Hlive).
  destruct r as [w|]; eexists _, _; (split; [reflexivity |]); cbn [default].
  - split; [done |]. split; [| done].
    apply (live_same_heap st); [done | by apply Hlive].
  - split; [done |]. split; [| done].
    apply (live_alloc st _ k); [done | by right].
Qed.

Lemma soft_v1_construct_reuses_and_initialises_witness :
  let st := run SoftV1 true 1 [Construct 0 5] (init_state SoftV1 true 1) in
  ∃ st',
    type_call SoftV1 true 1 0 6 st = Return (PyObj 0) st' ∧
    trace st' = [InitCalled 0 5; InitCalled 0 6].
Proof.
  intros st.
  destruct (soft_v1_construct_reuses_and_initialises true 1 0 6 st (Some 0))
    as (o & st' & Hcall & Ho & _ & Htrace);
    [lia | reflexivity | by intros w [= <-] |].
  exists st'. cbn [default] in Ho. subst o. split; [exact Hcall | exact Htrace].
Defined.

(** ** [HardSingleton]: a new instance once the old one is gone *)

(** C8.  Under [HardSingleton], once the live instance of a class has been
    destroyed, the next construction call for that class raises nothing
    and returns an object allocated by this call: its identity is not that
    of the destroyed instance, it is live, and the destroyed one is not. *)
Theorem hard_construct_after_destroy (has_del : bool) (n : nat)
    (k : class_id) (a : args) (o : obj_id) (st : state) :
  k < n →
  live st k o →
  ∃ o' st',
    type_call Hard has_del n k a (step Hard has_del n st (Destroy o))
      = Return (PyObj o') st' ∧
    o' ≠ o ∧
    o' = length (heap st) ∧
    live st' k o' ∧
    ¬ live st' k o.
Proof.
  intros Hk Hlive.
  set (st1 := step Hard has_del n st (Destroy o)).
  assert (HardSingleton__has_instance (class_dict k st1) = Some false) as Hflag.
  { unfold st1. rewrite (destroy_live_class_dict _ _ _ k) by done.
    by rewrite decide_True. }
  assert (heap st1 = alter (λ ob, Object (obj_class ob) false) o (heap st))
    as Hheap by (by apply destroy_live_heap with k).
  assert (length (heap st1) = length (heap st)) as Hlen
    by (by rewrite Hheap, length_alter).
  rewrite (hard_type_call has_del n k a st1 false Hk Hflag).
  eexists _, _. split; [reflexivity |].
  pose proof (live_lt _ _ _ Hlive) as Hlt.
  split; [lia |]. split; [done |]. split.
  - apply (live_alloc st1 _ k); [done | by right].
  - intros Hbad. apply (live_alloc st1 _ k) in Hbad; [| done].
    destruct Hbad as [Hbad | [_ Heq]]; [| lia].
    unfold st1 in Hbad. rewrite (destroy_live _ _ _ k) in Hbad by done.
    apply live_kill in Hbad. by destruct Hbad as [_ Hbad].
Qed.

Lemma hard_construct_after_destroy_witness :
  let st := run Hard true 1 [Construct 0 5] (init_state Hard true 1) in
  ∃ st',
    type_call Hard true 1 0 6 (step Hard true 1 st (Destroy 0))
      = Return (PyObj 1) st'.
Proof.
  intros st.
  destruct (hard_construct_after_destroy true 1 0 6 0 st)
    as (o' & st' & Hcall & _ & Ho & _); [lia | reflexivity |].
  exists st'. rewrite Hcall, Ho. reflexivity.
Defined.

(** ** At most one live instance *)

Lemma tracks_frame (mcs : metaclass) (st st' : state) (c : class_id) :
  class_dict c st' = class_dict c st →
  (∀ o, live st' c o ↔ live st c o) →
  tracks mcs st c → tracks mcs st' c.
Proof.
  intros Hd Hl. unfold tracks. rewrite Hd.
  destruct mcs.
  - intros (b & Hb & Hnone). exists b. split; [done |].
    intros Hf o. rewrite Hl. by apply Hnone.
  - intros (r & Hr & H). exists r. split; [done |].
    destruct r as [w|]; [by apply Hl | intros o; rewrite Hl; apply H].
  - intros (r & Hr & H). exists r. split; [done |].
    destruct r as [w|]; destruct H as [H1 H2]; (split; [| done]).
    + by apply Hl.
    + intros o. rewrite Hl. apply H1.
Qed.

Lemma at_most_one_live_frame (st st' : state) (c : class_id) :
  (∀ o, live st' c o → live st c o) →
  at_most_one_live st c → at_most_one_live st' c.
Proof. intros Hl H o1 o2 H1 H2. apply H; by apply Hl. Qed.

Lemma consistent_frame (mcs : metaclass) (n : nat) (st st' : state) :
  (∀ c, class_dict c st' = class_dict c st) →
  heap st' = heap st →
  consistent mcs n st → consistent mcs n st'.
Proof.
  intros Hd Hh Hc c Hlt. destruct (Hc c Hlt) as [Ht Hu].
  assert (∀ o, live st' c o ↔ live st c o) as Hl
    by (intros o; by apply live_same_heap).
  split.
  - by apply (tracks_frame mcs st).
  - apply (at_most_one_live_frame st); [| done]. intros o. by apply Hl.
Qed.

(** A fresh instance of class [k], which had none: the other classes do
    not notice, and [k] has exactly this one. *)
Lemma consistent_alloc (mcs : metaclass) (n : nat) (k : class_id)
    (st st' : state) :
  heap st' = heap st ++ [Object k true] →
  (∀ c, c ≠ k → class_dict c st' = class_dict c st) →
  (∀ o, ¬ live st k o) →
  (k < n → tracks mcs st' k) →
  consistent mcs n st → consistent mcs n st'.
Proof.
  intros Hh Hd Hnone Hk Hc c Hlt. destruct (Hc c Hlt) as [Ht Hu].
  destruct (decide (c = k)) as [-> | Hne].
  - split; [by apply Hk |].
    intros o1 o2 H1 H2.
    apply (live_alloc st _ k) in H1; [| done].
    apply (live_alloc st _ k) in H2; [| done].
    destruct H1 as [H1 | [_ ->]]; [by destruct (Hnone o1) |].
    destruct H2 as [H2 | [_ ->]]; [by destruct (Hnone o2) | done].
  - assert (∀ o, live st' c o ↔ live st c o) as Hl.
    { intros o. rewrite (live_alloc st st' k) by done.
      split; [intros [Ho | [Hck _]]; [done | by destruct Hne] | by left]. }
    split.
    + apply (tracks_frame mcs st); [by apply Hd | done | done].
    + apply (at_most_one_live_frame st); [| done]. intros o. by apply Hl.
Qed.

(** The live instance [o] of class [k] dies and [k] is cleared. *)
Lemma consistent_kill (mcs : metaclass) (n : nat) (k : class_id) (o : obj_id)
    (st st' : state) :
  live st k o →
  heap st' = alter (λ ob, Object (obj_class ob) false) o (heap st) →
  (∀ c, c ≠ k → class_dict c st' = class_dict c st) →
  (k < n → class_dict k st' = on_destroy mcs (class_dict k st)) →
  consistent mcs n st → consistent mcs n st'.
Proof.
  intros Hlive Hh Hd Hk Hc c Hlt. destruct (Hc c Hlt) as [Ht Hu].
  assert (∀ c' o', live st' c' o' ↔ live st c' o' ∧ o' ≠ o) as Hl.
  { intros c' o'. rewrite <- live_kill. unfold live, kill. by rewrite Hh. }
  destruct (decide (c = k)) as [-> | Hne].
  - assert (∀ o', ¬ live st' k o') as Hnone.
    { intros o' [Ho' Hneq]%Hl. apply Hneq. by apply Hu. }
    split; [| intros o1 o2 H1; by destruct (Hnone o1)].
    unfold tracks. rewrite (Hk Hlt).
    destruct mcs; cbn [on_destroy].
    + by exists false.
    + by exists None.
    + by exists None.
  - assert (∀ o', live st' c o' ↔ live st c o') as Hl'.
    { intros o'. rewrite Hl. split; [by intros [? _] |].
      intros Ho'. split; [done |]. intros ->.
      unfold live in *. congruence. }
    split.
    + apply (tracks_frame mcs st); [by apply Hd | done | done].
    + apply (at_most_one_live_frame st); [| done]. intros o'. by apply Hl'.
Qed.

Lemma class_dict_init_state (mcs : metaclass) (has_del : bool) (n : nat)
    (c : class_id) :
  c < n →
  class_dict c (init_state mcs has_del n)
    = cls_dict (metaclass_new mcs c (parent_slots mcs has_del c)).
Proof.
  intros Hc. unfold class_dict, init_state. cbn [classes].
  rewrite (elem_of_list_to_map_1 _ c (cls_dict (class_chain mcs has_del c))).
  - cbn [default]. by rewrite class_chain_eq.
  - rewrite <- list_fmap_compose.
    rewrite (list_fmap_ext _ id (seq 0 n)) by done.
    rewrite list_fmap_id. apply NoDup_seq.
  - apply list_elem_of_fmap. exists c. split; [done |].
    apply elem_of_seq. lia.
Qed.

Lemma consistent_init_state (mcs : metaclass) (has_del : bool) (n : nat) :
  consistent mcs n (init_state mcs has_del n).
Proof.
  intros c Hc.
  assert (∀ o, ¬ live (init_state mcs has_del n) c o) as Hnone.
  { intros o. unfold live, init_state. cbn [heap]. by rewrite lookup_nil. }
  split; [| intros o1 o2 H1; by destruct (Hnone o1)].
  unfold tracks. rewrite (class_dict_init_state _ _ _ _ Hc).
  destruct mcs.
  - by exists false.
  - by exists None.
  - by exists None.
Qed.

Lemma destroy_not_live (mcs : metaclass) (has_del : bool) (n : nat)
    (o : obj_id) (st : state) :
  (∀ k, ¬ live st k o) → step mcs has_del n st (Destroy o) = st.
Proof.
  intros Hnone. cbn [step]. unfold dealloc.
  destruct (heap st !! o) as [[k alive]|] eqn:Ho; [| done].
  destruct alive; [| done]. by destruct (Hnone k).
Qed.

Lemma destroy_undeclared (mcs : metaclass) (has_del : bool) (n : nat)
    (k : class_id) (o : obj_id) (st : state) :
  n ≤ k → live st k o → step mcs has_del n st (Destroy o) = kill o st.
Proof.
  intros Hk Hlive. cbn [step]. unfold dealloc. rewrite Hlive.
  cbn [obj_alive obj_class]. by rewrite (lookup_class_ge _ _ _ _ Hk).
Qed.

Lemma live_or_not (st : state) (o : obj_id) :
  (∃ k, live st k o) ∨ (∀ k, ¬ live st k o).
Proof.
  unfold live. destruct (heap st !! o) as [[k alive]|]; [| by right].
  destruct alive; [left; by exists k | right; intros k' [=]].
Qed.

Ltac other_class :=
  repeat first
    [ rewrite class_dict_log
    | rewrite class_dict_set_heap
    | rewrite class_dict_with_class_dict_ne by done ];
  try reflexivity.

Lemma consistent_step (mcs : metaclass) (has_del : bool) (n : nat)
    (st : state) (x : op) :
  consistent mcs n st → consistent mcs n (step mcs has_del n st x).
Proof.
  intros Hc. destruct x as [k a | o].
  - cbn [step]. destruct (decide (k < n)) as [Hk | Hk].
    2:{ rewrite type_call_undeclared by lia. done. }
    destruct (Hc k Hk) as [Ht Hu]. destruct mcs; cbn [tracks] in Ht.
    + destruct Ht as (b & Hb & Hnone).
      rewrite (hard_type_call has_del n k a st b Hk Hb).
      destruct b; [done |]. cbn [final_state].
      apply (consistent_alloc Hard n k st); [done | | by apply Hnone | | done].
      * intros c Hne. other_class.
      * intros _. exists true. split; [| done].
        by rewrite class_dict_log, class_dict_set_heap,
          class_dict_with_class_dict.
    + destruct Ht as (r & Hr & Hlive).
      rewrite (soft_v1_type_call has_del n k a st r Hk Hr).
      2:{ by intros w ->. }
      destruct r as [w|]; cbn [final_state].
      * by apply (consistent_frame SoftV1 n st).
      * apply (consistent_alloc SoftV1 n k st); [done | | done | | done].
        -- intros c Hne. other_class.
        -- intros _. exists (Some (length (heap st))). split.
           ++ by rewrite class_dict_log, class_dict_with_class_dict.
           ++ apply (live_alloc st _ k); [done | by right].
    + destruct Ht as (r & Hr & Hlive).
      destruct r as [w|]; destruct Hlive as [Hlive Hflag].
      * rewrite (soft_v2_type_call has_del n k a st (Some w) false Hk Hr Hflag).
        2:{ by intros ? [= <-]. }
        done.
      * rewrite (soft_v2_type_call has_del n k a st None true Hk Hr Hflag).
        2:{ done. }
        cbn [final_state].
        apply (consistent_alloc SoftV2 n k st); [done | | done | | done].
        -- intros c Hne. other_class.
        -- intros _. exists (Some (length (heap st))).
           rewrite !class_dict_with_class_dict. split; [done |].
           split; [| done].
           apply (live_alloc st _ k); [done | by right].
  - destruct (live_or_not st o) as [[k Hlive] | Hnone].
    2:{ by rewrite destroy_not_live. }
    destruct (decide (k < n)) as [Hk | Hk].
    + apply (consistent_kill mcs n k o st); [done | | | | done].
      * by apply destroy_live_heap with k.
      * intros c Hne. rewrite (destroy_live_class_dict _ _ _ k) by done.
        by rewrite decide_False.
      * intros _. rewrite (destroy_live_class_dict _ _ _ k) by done.
        by rewrite decide_True.
    + rewrite (destroy_undeclared _ _ _ k) by (done || lia).
      apply (consistent_kill mcs n k o st); [done | done | done | lia | done].
Qed.

Lemma consistent_run (mcs : metaclass) (has_del : bool) (n : nat)
    (ops : list op) (st : state) :
  consistent mcs n st → consistent mcs n (run mcs has_del n ops st).
Proof.
  revert st. induction ops as [|x ops IH]; intros st Hc; [done |].
  apply IH. by apply consistent_step.
Qed.

(** C1.  Whatever sequence of constructions and destructions a program
    runs from its start, under any of the three metaclasses, every class of
    the hierarchy has at most one live instance afterwards.  A state "at
    any point in time" is the state after a prefix of the operations, which
    is itself such a sequence. *)
Theorem at_most_one_live_instance (mcs : metaclass) (has_del : bool)
    (n : nat) (ops : list op) (c : class_id) :
  c < n →
  at_most_one_live (run mcs has_del n ops (init_state mcs has_del n)) c.
Proof.
  intros Hc.
  by apply (consistent_run mcs has_del n ops _
              (consistent_init_state mcs has_del n) c Hc).
Qed.

Lemma at_most_one_live_instance_witness :
  at_most_one_live
    (run SoftV1 true 2
       [Construct 0 5; Construct 0 6; Construct 1 7; Destroy 0; Construct 0 8]
       (init_state SoftV1 true 2)) 0.
Proof. apply (at_most_one_live_instance SoftV1 true 2 _ 0). lia. Defined.

(** ** [SoftSingletonV2]: the initialiser runs once per instance *)

Lemma inits_on_app (o : obj_id) (t1 t2 : list event) :
  inits_on o (t1 ++ t2) = inits_on o t1 ++ inits_on o t2.
Proof. apply omap_app. Qed.

(** While the instance [o] of class [k] lives, a step that is not its
    destruction leaves class [k] and [o] alone and does not run the user's
    [__init__] on [o]. *)
Lemma soft_v2_step_keeps (has_del : bool) (n : nat) (k : class_id)
    (o : obj_id) (st : state) (x : op) :
  k < n →
  consistent SoftV2 n st →
  live st k o →
  destroys o x = false →
  class_dict k (step SoftV2 has_del n st x) = class_dict k st ∧
  live (step SoftV2 has_del n st x) k o ∧
  ∃ t, trace (step SoftV2 has_del n st x) = trace st ++ t ∧ inits_on o t = [].
Proof.
  intros Hk Hc Hlive Hx.
  assert (∀ st', st' = st →
            class_dict k st' = class_dict k st ∧ live st' k o ∧
            ∃ t, trace st' = trace st ++ t ∧ inits_on o t = []) as Hsame.
  { intros st' ->. repeat split; [done |]. exists []. by rewrite app_nil_r. }
  destruct x as [c a | o'].
  - cbn [step]. destruct (decide (c < n)) as [Hcn | Hcn].
    2:{ apply Hsame. by rewrite type_call_undeclared by lia. }
    destruct (Hc c Hcn) as [(r & Hr & Ht) Hu].
    destruct r as [w|]; destruct Ht as [Hw Hflag].
    + apply Hsame.
      rewrite (soft_v2_type_call has_del n c a st (Some w) false Hcn Hr Hflag).
      * done.
      * by intros ? [= <-].
    + assert (c ≠ k) as Hne by (intros ->; by destruct (Hw o)).
      rewrite (soft_v2_type_call has_del n c a st None true Hcn Hr Hflag) by done.
      cbn [final_state]. split; [other_class |]. split.
      * apply (live_alloc st _ c); [done | by left].
      * exists [InitCalled (length (heap st)) a]. split; [done |].
        cbn. rewrite decide_False; [done |].
        apply live_lt in Hlive. lia.
  - cbn [destroys] in Hx. apply bool_decide_eq_false in Hx.
    destruct (live_or_not st o') as [[c Hlive'] | Hnone].
    2:{ apply Hsame. by apply destroy_not_live. }
    assert (c ≠ k) as Hne.
    { intros ->. apply Hx. destruct (Hc k Hk) as [_ Hu]. by apply Hu. }
    assert (live (kill o' st) k o) as Hkept by (by apply live_kill).
    destruct (decide (c < n)) as [Hcn | Hcn].
    + split; [| split].
      * rewrite (destroy_live_class_dict _ _ _ c) by done.
        by rewrite decide_False.
      * unfold live. rewrite (destroy_live_heap _ _ _ c) by done. exact Hkept.
      * rewrite (destroy_live_trace _ _ _ c) by done.
        eexists. split; [done |]. by destruct has_del.
    + rewrite (destroy_undeclared _ _ _ c) by (done || lia).
      repeat split; [done |]. exists []. by rewrite app_nil_r.
Qed.

(** From the empty state of class [k]: the first construction allocates
    [o] and initialises it; until [o] is destroyed, nothing initialises it
    again. *)
Lemma soft_v2_epoch (has_del : bool) (n : nat) (k : class_id) (a : args)
    (ops : list op) (st : state) :
  k < n →
  consistent SoftV2 n st →
  policy_empty SoftV2 (class_dict k st) →
  keeps_alive (length (heap st)) ops = true →
  let st1 := run SoftV2 has_del n (Construct k a :: ops) st in
  consistent SoftV2 n st1 ∧
  live st1 k (length (heap st)) ∧
  ∃ t, trace st1 = trace st ++ t ∧ inits_on (length (heap st)) t = [a].
Proof.
  intros Hk Hc [Hr Hflag] Hops st1. unfold st1, run. cbn [foldl].
  set (o := length (heap st)) in *.
  set (st0 := step SoftV2 has_del n st (Construct k a)).
  assert (consistent SoftV2 n st0) as Hc0 by (by apply consistent_step).
  assert (live st0 k o ∧
          ∃ t, trace st0 = trace st ++ t ∧ inits_on o t = [a]) as [Hl0 Ht0].
  { unfold st0. cbn [step].
    rewrite (soft_v2_type_call has_del n k a st None true Hk Hr Hflag) by done.
    cbn [final_state]. split.
    - apply (live_alloc st _ k); [done | by right].
    - exists [InitCalled o a]. split; [done |]. cbn. by rewrite decide_True. }
  clearbody st0. clear Hc Hr Hflag.
  revert st0 Hc0 Hl0 Ht0.
  induction ops as [|x ops IH]; intros st0 Hc0 Hl0 Ht0; [done |].
  cbn [keeps_alive forallb] in Hops. apply andb_true_iff in Hops as [Hx Hops].
  apply negb_true_iff in Hx.
  destruct (soft_v2_step_keeps has_del n k o st0 x Hk Hc0 Hl0 Hx)
    as (_ & Hl1 & t1 & Ht1 & Hi1).
  destruct Ht0 as (t0 & Ht0 & Hi0).
  cbn [foldl]. apply IH; [done | by apply consistent_step | done |].
  exists (t0 ++ t1). split.
  - by rewrite Ht1, Ht0, app_assoc.
  - by rewrite inits_on_app, Hi0, Hi1.
Qed.

(** C7.  Under [SoftSingletonV2], take a class that tracks no instance in
    a state the program has reached.  Constructing it allocates [o]; from
    there to the destruction of [o], whatever other constructions and
    destructions happen, the user's [__init__] runs on [o] exactly once,
    with the arguments of the first call.  Destroying [o] leaves the class
    empty again, [__not_init] set, and the next construction starts a new
    such period for a new object. *)
Theorem soft_v2_initialises_once (has_del : bool) (n : nat) (k : class_id)
    (before ops ops' : list op) (a a' : args) :
  let st := run SoftV2 has_del n before (init_state SoftV2 has_del n) in
  let o := length (heap st) in
  let st1 := run SoftV2 has_del n (Construct k a :: ops) st in
  let st2 := step SoftV2 has_del n st1 (Destroy o) in
  let o' := length (heap st2) in
  let st3 := run SoftV2 has_del n (Construct k a' :: ops') st2 in
  k < n →
  policy_empty SoftV2 (class_dict k st) →
  keeps_alive o ops = true →
  keeps_alive o' ops' = true →
  (∃ t, trace st1 = trace st ++ t ∧ inits_on o t = [a]) ∧
  policy_empty SoftV2 (class_dict k st2) ∧
  o' ≠ o ∧
  (∃ t', trace st3 = trace st2 ++ t' ∧ inits_on o' t' = [a']).
Proof.
  intros st o st1 st2 o' st3 Hk Hempty Hops Hops'.
  assert (consistent SoftV2 n st) as Hc
    by apply consistent_run, consistent_init_state.
  destruct (soft_v2_epoch has_del n k a ops st Hk Hc Hempty Hops)
    as (Hc1 & Hl1 & Ht1).
  fold o st1 in Hc1, Hl1, Ht1.
  assert (policy_empty SoftV2 (class_dict k st2)) as Hempty2.
  { unfold st2. rewrite (destroy_live_class_dict _ _ _ k) by done.
    rewrite decide_True by done. apply on_destroy_empty. }
  assert (consistent SoftV2 n st2) as Hc2 by (by apply consistent_step).
  split; [done |]. split; [done |]. split.
  - unfold o', st2. rewrite (destroy_live_heap _ _ _ k) by done.
    rewrite length_alter. apply live_lt in Hl1. lia.
  - by destruct (soft_v2_epoch has_del n k a' ops' st2 Hk Hc2 Hempty2 Hops')
      as (_ & _ & Ht3).
Qed.

Lemma soft_v2_initialises_once_witness :
  let st := init_state SoftV2 true 2 in
  let st1 :=
    run SoftV2 true 2
      [Construct 0 5; Construct 0 6; Construct 1 7; Construct 0 8] st in
  let st2 := step SoftV2 true 2 st1 (Destroy 0) in
  let st3 := run SoftV2 true 2 [Construct 0 9; Construct 0 10] st2 in
  (∃ t, trace st1 = trace st ++ t ∧ inits_on 0 t = [5]) ∧
  policy_empty SoftV2 (class_dict 0 st2) ∧
  2 ≠ 0 ∧
  (∃ t', trace st3 = trace st2 ++ t' ∧ inits_on 2 t' = [9]).
Proof.
  apply (soft_v2_initialises_once true 2 0 []
           [Construct 0 6; Construct 1 7; Construct 0 8]
           [Construct 0 10] 5 9);
    [lia | split; reflexivity | reflexivity | reflexivity].
Defined.

(** * Further properties of the singleton metaclasses *)

(** ** Classes of one hierarchy do not disturb each other *)

(** A step that concerns another class leaves the attributes and the
    instances of class [c] as they are and does not initialise any of
    them. *)
Lemma step_frame (mcs : metaclass) (has_del : bool) (n : nat) (st : state)
    (x : op) (c : class_id) :
  consistent mcs n st →
  op_class st x ≠ Some c →
  class_dict c (step mcs has_del n st x) = class_dict c st ∧
  (∀ o, live (step mcs has_del n st x) c o ↔ live st c o) ∧
  ∃ t, trace (step mcs has_del n st x) = trace st ++ t ∧
       ∀ o, live st c o → inits_on o t = [].
Proof.
  intros Hc Hx.
  assert (∀ st', st' = st →
            class_dict c st' = class_dict c st ∧
            (∀ o, live st' c o ↔ live st c o) ∧
            ∃ t, trace st' = trace st ++ t ∧
                 ∀ o, live st c o → inits_on o t = []) as Hsame.
  { intros st' ->. repeat split; try done. exists []. by rewrite app_nil_r. }
  assert (∀ k st' a, k ≠ c →
            heap st' = heap st ++ [Object k true] →
            class_dict c st' = class_dict c st →
            trace st' = trace st ++ [InitCalled (length (heap st)) a] →
            class_dict c st' = class_dict c st ∧
            (∀ o, live st' c o ↔ live st c o) ∧
            ∃ t, trace st' = trace st ++ t ∧
                 ∀ o, live st c o → inits_on o t = []) as Halloc.
  { intros k st' a Hne Hh Hd Ht. split; [done |]. split.
    - intros o. rewrite (live_alloc st st' k) by done.
      split; [intros [Ho | [Hck _]]; [done | by destruct Hne] | by left].
    - eexists. split; [exact Ht |]. intros o Ho%live_lt. cbn.
      rewrite decide_False; [done | lia]. }
  destruct x as [k a | o'].
  - cbn [op_class] in Hx. assert (k ≠ c) as Hne by congruence.
    cbn [step]. destruct (decide (k < n)) as [Hk | Hk].
    2:{ apply Hsame. by rewrite type_call_undeclared by lia. }
    destruct (Hc k Hk) as [Ht Hu]. destruct mcs; cbn [tracks] in Ht.
    + destruct Ht as (b & Hb & Hnone).
      rewrite (hard_type_call has_del n k a st b Hk Hb).
      destruct b; [by apply Hsame |]. cbn [final_state].
      apply (Halloc k _ a); [done | done | other_class | done].
    + destruct Ht as (r & Hr & Hlive).
      rewrite (soft_v1_type_call has_del n k a st r Hk Hr).
      2:{ by intros w ->. }
      destruct r as [w|]; cbn [final_state].
      * split; [done |]. split; [done |].
        exists [InitCalled w a]. split; [done |]. intros o Ho. cbn.
        rewrite decide_False; [done |]. intros ->.
        unfold live in *. congruence.
      * apply (Halloc k _ a); [done | done | other_class | done].
    + destruct Ht as (r & Hr & Hlive).
      destruct r as [w|]; destruct Hlive as [Hlive Hflag].
      * apply Hsame.
        rewrite (soft_v2_type_call has_del n k a st (Some w) false Hk Hr Hflag).
        -- done.
        -- by intros ? [= <-].
      * rewrite (soft_v2_type_call has_del n k a st None true Hk Hr Hflag)
          by done.
        cbn [final_state].
        apply (Halloc k _ a); [done | done | other_class | done].
  - destruct (live_or_not st o') as [[k Hlive'] | Hnone].
    2:{ apply Hsame. by apply destroy_not_live. }
    assert (k ≠ c) as Hne.
    { intros ->. apply Hx. cbn [op_class]. unfold live in Hlive'.
      by rewrite Hlive'. }
    assert (∀ st', heap st' = alter (λ ob, Object (obj_class ob) false) o' (heap st) →
              ∀ o, live st' c o ↔ live st c o) as Hkill.
    { intros st' Hh o.
      transitivity (live (kill o' st) c o).
      { unfold live, kill. by rewrite Hh. }
      rewrite live_kill. split; [by intros [? _] |].
      intros Ho. split; [done |]. intros ->. unfold live in *. congruence. }
    destruct (decide (k < n)) as [Hk | Hk].
    + split; [| split].
      * rewrite (destroy_live_class_dict _ _ _ k) by done.
        by rewrite decide_False.
      * apply Hkill. by apply destroy_live_heap with k.
      * rewrite (destroy_live_trace _ _ _ k) by done.
        eexists. split; [done |]. intros o _. by destruct has_del.
    + rewrite (destroy_undeclared _ _ _ k) by (done || lia).
      split; [done |]. split; [by apply Hkill |].
      exists []. by rewrite app_nil_r.
Qed.

(** X3.  In any state a program has reached, an operation that concerns
    one class of the hierarchy (a construction of that class, the
    destruction of one of its instances) leaves every other class as it
    was: same attributes, same live instances.  This holds under all three
    metaclasses although the methods of a derived class wrap those of its
    base. *)
Theorem other_classes_untouched (mcs : metaclass) (has_del : bool) (n : nat)
    (before : list op) (x : op) (c : class_id) :
  let st := run mcs has_del n before (init_state mcs has_del n) in
  op_class st x ≠ Some c →
  class_dict c (step mcs has_del n st x) = class_dict c st ∧
  ∀ o, live (step mcs has_del n st x) c o ↔ live st c o.
Proof.
  intros st Hx.
  assert (consistent mcs n st) as Hc
    by apply consistent_run, consistent_init_state.
  destruct (step_frame mcs has_del n st x c Hc Hx) as (Hd & Hl & _).
  by split.
Qed.

Lemma other_classes_untouched_witness :
  let st := run Hard true 2 [Construct 0 5; Construct 1 6]
              (init_state Hard true 2) in
  class_dict 0 (step Hard true 2 st (Destroy 1)) = class_dict 0 st ∧
  ∀ o, live (step Hard true 2 st (Destroy 1)) 0 o ↔ live st 0 o.
Proof.
  apply (other_classes_untouched Hard true 2 [Construct 0 5; Construct 1 6]
           (Destroy 1) 0).
  vm_compute. discriminate.
Defined.

(** ** [HardSingleton]: refusal exactly while an instance lives *)

Lemma flag_means_live_step (has_del : bool) (n : nat) (st : state) (x : op) :
  consistent Hard n st →
  flag_means_live n st →
  flag_means_live n (step Hard has_del n st x).
Proof.
  intros Hc Hf c Hcn Hflag.
  destruct (decide (op_class st x = Some c)) as [Hx | Hx].
  2:{ destruct (step_frame Hard has_del n st x c Hc Hx) as (Hd & Hl & _).
      rewrite Hd in Hflag. destruct (Hf c Hcn Hflag) as [o Ho].
      exists o. by apply Hl. }
  destruct x as [k a | o']; cbn [op_class] in Hx.
  - injection Hx as ->. cbn [step] in *.
    destruct (Hc c Hcn) as [(b & Hb & Hnone) _].
    rewrite (hard_type_call has_del n c a st b Hcn Hb) in *.
    destruct b; cbn [final_state] in *; [by apply Hf |].
    exists (length (heap st)). apply (live_alloc st _ c); [done | by right].
  - destruct (live_or_not st o') as [[k Hlive] | Hnone].
    2:{ rewrite destroy_not_live in * by done. by apply Hf. }
    assert (k = c) as ->.
    { unfold live in Hlive. rewrite Hlive in Hx. by injection Hx. }
    rewrite (destroy_live_class_dict _ _ _ c) in Hflag by done.
    rewrite decide_True in Hflag by done. discriminate Hflag.
Qed.

Lemma flag_means_live_run (has_del : bool) (n : nat) (ops : list op)
    (st : state) :
  consistent Hard n st →
  flag_means_live n st →
  flag_means_live n (run Hard has_del n ops st).
Proof.
  revert st. induction ops as [|x ops IH]; intros st Hc Hf; [done |].
  apply IH; [by apply consistent_step | by apply flag_means_live_step].
Qed.

Lemma flag_means_live_init (has_del : bool) (n : nat) :
  flag_means_live n (init_state Hard has_del n).
Proof.
  intros c Hc. by rewrite (class_dict_init_state _ _ _ _ Hc).
Qed.

(** X1.  Take a hierarchy as [class_chain] builds it under
    [HardSingleton]: the root class defines no [__new__] of its own, so
    every allocation is [object.__new__], and the user's [__init__] and
    [__del__] return.  In any state such a program has reached by
    constructions and destructions, a construction call for a class of
    the hierarchy raises [SingletonError] and changes nothing if that
    class has a live instance, and otherwise returns a freshly allocated
    live instance of that class: with an allocation that cannot fail, the
    flag and the heap never drift apart.  (With an original [__new__]
    that raises they do, see X4.) *)
Theorem hard_construct_refused_iff_live (has_del : bool) (n : nat)
    (before : list op) (k : class_id) (a : args) :
  let st := run Hard has_del n before (init_state Hard has_del n) in
  k < n →
  ((∃ o, live st k o) ∧
   type_call Hard has_del n k a st = Raise (Exn SingletonError (Some k)) st) ∨
  ((∀ o, ¬ live st k o) ∧
   ∃ st', type_call Hard has_del n k a st
            = Return (PyObj (length (heap st))) st' ∧
          live st' k (length (heap st))).
Proof.
  intros st Hk.
  assert (consistent Hard n st) as Hc
    by apply consistent_run, consistent_init_state.
  assert (flag_means_live n st) as Hf.
  { apply flag_means_live_run;
      [apply consistent_init_state | apply flag_means_live_init]. }
  destruct (Hc k Hk) as [(b & Hb & Hnone) _].
  rewrite (hard_type_call has_del n k a st b Hk Hb).
  destruct b.
  - left. split; [by apply Hf | done].
  - right. split; [by apply Hnone |].
    eexists. split; [done |].
    apply (live_alloc st _ k); [done | by right].
Qed.

Lemma hard_construct_refused_iff_live_witness :
  let st := run Hard true 1 [Construct 0 5] (init_state Hard true 1) in
  type_call Hard true 1 0 6 st = Raise (Exn SingletonError (Some 0)) st.
Proof.
  intros st.
  destruct (hard_construct_refused_iff_live true 1 [Construct 0 5] 0 6)
    as [[_ Hdup] | [Hnone _]]; [lia | exact Hdup |].
  by destruct (Hnone 0).
Defined.

(** ** The soft metaclasses: a construction always yields the instance *)



(** ** [SoftSingletonV1]: one initialiser run per construction call *)

Lemma soft_v1_step_keeps (has_del : bool) (n : nat) (k : class_id)
    (o : obj_id) (st : state) (x : op) :
  k < n →
  consistent SoftV1 n st →
  live st k o →
  destroys o x = false →
  live (step SoftV1 has_del n st x) k o ∧
  ∃ t, trace (step SoftV1 has_del n st x) = trace st ++ t ∧
       inits_on o t = construct_args k [x].
Proof.
  intros Hk Hc Hlive Hx.
  destruct (Hc k Hk) as [(r & Hr & Hheld) Hu].
  destruct (decide (op_class st x = Some k)) as [Hop | Hop].
  - destruct x as [c a | o']; cbn [op_class] in Hop.
    + injection Hop as ->. cbn [step].
      destruct r as [w|]; [| by destruct (Hheld o)].
      assert (w = o) as -> by (by apply Hu).
      rewrite (soft_v1_type_call has_del n k a st (Some o) Hk Hr).
      2:{ by intros ? [= <-]. }
      cbn [final_state]. split; [done |].
      exists [InitCalled o a]. split; [done |].
      cbn. by rewrite !decide_True.
    + cbn [destroys] in Hx. apply bool_decide_eq_false in Hx.
      destruct (live_or_not st o') as [[c Hlive'] | Hnone].
      * assert (c = k) as ->.
        { unfold live in Hlive'. rewrite Hlive' in Hop. by injection Hop. }
        destruct Hx. by apply Hu.
      * rewrite destroy_not_live by done. split; [done |].
        exists []. by rewrite app_nil_r.
  - destruct (step_frame SoftV1 has_del n st x k Hc Hop) as (_ & Hl & t & Ht & Hi).
    split; [by apply Hl |]. exists t. split; [done |].
    rewrite (Hi o Hlive). destruct x as [c a | o']; [| done].
    cbn. rewrite decide_False; [done |]. cbn [op_class] in Hop. congruence.
Qed.

Lemma construct_args_cons (k : class_id) (x : op) (ops : list op) :
  construct_args k (x :: ops) = construct_args k [x] ++ construct_args k ops.
Proof. apply (omap_app _ [x] ops). Qed.

Lemma soft_v1_epoch (has_del : bool) (n : nat) (k : class_id) (o : obj_id)
    (ops : list op) (st : state) :
  k < n →
  consistent SoftV1 n st →
  live st k o →
  keeps_alive o ops = true →
  ∃ t, trace (run SoftV1 has_del n ops st) = trace st ++ t ∧
       inits_on o t = construct_args k ops.
Proof.
  intros Hk. revert st.
  induction ops as [|x ops IH]; intros st Hc Hlive Hops.
  { exists []. by rewrite app_nil_r. }
  cbn [keeps_alive forallb] in Hops. apply andb_true_iff in Hops as [Hx Hops].
  apply negb_true_iff in Hx.
  destruct (soft_v1_step_keeps has_del n k o st x Hk Hc Hlive Hx)
    as (Hl1 & t1 & Ht1 & Hi1).
  destruct (IH (step SoftV1 has_del n st x)) as (t2 & Ht2 & Hi2);
    [by apply consistent_step | done | done |].
  exists (t1 ++ t2). split.
  - unfold run in *. cbn [foldl]. by rewrite Ht2, Ht1, app_assoc.
  - by rewrite inits_on_app, Hi1, Hi2, (construct_args_cons k x ops).
Qed.

(** X7.  Under [SoftSingletonV1], take a class that tracks no instance in
    a state the program has reached.  Constructing it allocates [o]; until
    [o] is destroyed, whatever else happens, the user's [__init__] runs on
    [o] once for every construction call of that class, with the arguments
    of the calls in their order, and for no other reason. *)
Theorem soft_v1_initialises_on_every_construct (has_del : bool) (n : nat)
    (k : class_id) (before ops : list op) (a : args) :
  let st := run SoftV1 has_del n before (init_state SoftV1 has_del n) in
  let o := length (heap st) in
  k < n →
  policy_empty SoftV1 (class_dict k st) →
  keeps_alive o ops = true →
  ∃ t, trace (run SoftV1 has_del n (Construct k a :: ops) st) = trace st ++ t ∧
       inits_on o t = a :: construct_args k ops.
Proof.
  intros st o Hk Hempty Hops.
  assert (consistent SoftV1 n st) as Hc
    by apply consistent_run, consistent_init_state.
  set (st0 := step SoftV1 has_del n st (Construct k a)).
  assert (live st0 k o ∧ trace st0 = trace st ++ [InitCalled o a])
    as [Hl0 Ht0].
  { unfold st0. cbn [step].
    rewrite (soft_v1_type_call has_del n k a st None Hk Hempty) by done.
    cbn [final_state]. split; [| done].
    apply (live_alloc st _ k); [done | by right]. }
  destruct (soft_v1_epoch has_del n k o ops st0 Hk) as (t & Ht & Hi);
    [by apply consistent_step | done | done |].
  exists (InitCalled o a :: t). split.
  - change (run SoftV1 has_del n (Construct k a :: ops) st)
      with (run SoftV1 has_del n ops st0).
    rewrite Ht, Ht0. by rewrite <- app_assoc.
  - cbn. rewrite decide_True by done. f_equal. exact Hi.
Qed.

Lemma soft_v1_initialises_on_every_construct_witness :
  let st := init_state SoftV1 true 2 in
  ∃ t, trace (run SoftV1 true 2
                [Construct 0 5; Construct 0 6; Construct 1 7; Construct 0 8] st)
         = trace st ++ t ∧
       inits_on 0 t = [5; 6; 8].
Proof.
  apply (soft_v1_initialises_on_every_construct true 2 0 []
           [Construct 0 6; Construct 1 7; Construct 0 8] 5);
    [lia | reflexivity | reflexivity].
Defined.

(** ** The user's [__del__] through the nested wrappers *)

(** X8.  When a live instance of any class of the hierarchy is destroyed,
    however many installed [__del__] wrappers lie between its class and
    the root, the user's [__del__] runs exactly once if the root class
    defined one and nothing is run otherwise; afterwards the object is
    live for no class. *)
Theorem user_del_runs_once (mcs : metaclass) (has_del : bool) (n : nat)
    (k : class_id) (o : obj_id) (st : state) :
  k < n →
  live st k o →
  trace (step mcs has_del n st (Destroy o))
    = trace st ++ (if has_del then [DelCalled o] else []) ∧
  ∀ c, ¬ live (step mcs has_del n st (Destroy o)) c o.
Proof.
  intros Hk Hlive. split; [by apply destroy_live_trace with k |].
  intros c Hbad. unfold live in Hbad.
  rewrite (destroy_live_heap _ _ _ k) in Hbad by done.
  change (live (kill o st) c o) in Hbad.
  apply live_kill in Hbad. by destruct Hbad as [_ Hbad].
Qed.

Lemma user_del_runs_once_witness :
  let st := run SoftV2 true 3 [Construct 2 5] (init_state SoftV2 true 3) in
  trace (step SoftV2 true 3 st (Destroy 0)) = trace st ++ [DelCalled 0] ∧
  ∀ c, ¬ live (step SoftV2 true 3 st (Destroy 0)) c 0.
Proof.
  apply (user_del_runs_once SoftV2 true 3 2 0); [lia | reflexivity].
Defined.

(** ** When the captured original fails *)

(** X4.  [HardSingleton._new_] sets the flag before it calls the original
    [__new__] and has no handler around that call.  If the original raises
    (and did not itself touch the flag), the exception passes through with
    the flag left set, so every later construction of the class raises
    [SingletonError] although no instance was made. *)
Theorem hard_flag_stays_set_when_new_fails (sl : slots) (c : class_id)
    (a a' : args) (st st1 : state) (e : exn) :
  HardSingleton__has_instance (class_dict c st) = Some false →
  SingletonMeta._original_new sl c a
    (with_class_dict c (set_has_instance true (class_dict c st)) st)
    = Raise e st1 →
  HardSingleton__has_instance (class_dict c st1) = Some true →
  call_new (cls_slots (HardSingleton.__new__ c sl)) c a st = Raise e st1 ∧
  call_new (cls_slots (HardSingleton.__new__ c sl)) c a' st1
    = Raise (Exn SingletonError (Some c)) st1.
Proof.
  intros Hflag Hnew Hflag1. split.
  - installed. gate_here. by rewrite (hard_new_eq _ c a st false Hflag).
  - installed. gate_here. by rewrite (hard_new_eq _ c a' st1 true Hflag1).
Qed.

Lemma hard_flag_stays_set_when_new_fails_witness :
  let sl := Slots (Some (λ _ _, raise (Exn TypeError None))) user_init None in
  let st := State [] {[0 := set_has_instance false no_attrs]} [] in
  let st1 := State [] {[0 := set_has_instance true no_attrs]} [] in
  call_new (cls_slots (HardSingleton.__new__ 0 sl)) 0 5 st
    = Raise (Exn TypeError None) st1 ∧
  call_new (cls_slots (HardSingleton.__new__ 0 sl)) 0 6 st1
    = Raise (Exn SingletonError (Some 0)) st1.
Proof.
  intros sl st st1.
  apply (hard_flag_stays_set_when_new_fails sl 0 5 6 st st1
           (Exn TypeError None)); [reflexivity | | reflexivity].
  vm_compute. reflexivity.
Defined.

(** X5.  The soft [_new_] closures write the slot only after the original
    [__new__] has returned an object.  If the original raises, the same
    exception leaves [_new_]; if it returns [None], [ref(None)] raises
    [TypeError]; either way the state is the one the original left, with
    nothing stored. *)
Theorem soft_slot_untouched_when_new_fails (mcs : metaclass) (sl : slots)
    (c : class_id) (a : args) (st st1 : state) :
  mcs ≠ Hard →
  stored_handle mcs (class_dict c st) = Some None →
  (∀ e, SingletonMeta._original_new sl c a st = Raise e st1 →
        call_new (cls_slots (metaclass_new mcs c sl)) c a st = Raise e st1) ∧
  (SingletonMeta._original_new sl c a st = Return PyNone st1 →
   call_new (cls_slots (metaclass_new mcs c sl)) c a st
     = Raise (Exn TypeError None) st1).
Proof.
  intros Hsoft Hslot.
  split; [intros e Hnew | intros Hnew]; rewrite installed_new_here;
    (destruct mcs; [done | |]); cbn [stored_handle policy_new] in *.
  - unfold SoftSingletonV1._new_. unfold bind at 1 2. unfold getattr at 1.
    rewrite Hslot. unfold bind at 1. by rewrite Hnew.
  - unfold SoftSingletonV2._new_. unfold bind at 1 2. unfold getattr at 1.
    rewrite Hslot. unfold bind at 1. by rewrite Hnew.
  - unfold SoftSingletonV1._new_. unfold bind at 1 2. unfold getattr at 1.
    rewrite Hslot. unfold bind at 1. by rewrite Hnew.
  - unfold SoftSingletonV2._new_. unfold bind at 1 2. unfold getattr at 1.
    rewrite Hslot. unfold bind at 1. by rewrite Hnew.
Qed.

Lemma soft_slot_untouched_when_new_fails_witness :
  let sl := Slots (Some (λ _ _, ret PyNone)) user_init None in
  let st := State [] {[0 := set_object_ref_v1 None no_attrs]} [] in
  call_new (cls_slots (metaclass_new SoftV1 0 sl)) 0 5 st
    = Raise (Exn TypeError None) st.
Proof.
  intros sl st.
  apply (soft_slot_untouched_when_new_fails SoftV1 sl 0 5 st st);
    [discriminate | reflexivity | reflexivity].
Defined.

(** X6.  [SoftSingletonV2._init_] clears [__not_init] only after the
    original [__init__] has returned.  While the flag is set the original
    runs: if it raises, the exception passes through and the flag is as
    the original left it, so the next construction initialises again; if
    it returns, the flag is cleared.  With the flag clear the original is
    not run and nothing changes. *)
Theorem soft_v2_init_pending_until_it_returns (sl : slots) (c : class_id)
    (self : obj_id) (a : args) (ob : object) (st : state) (pending : bool) :
  heap st !! self = Some ob →
  obj_class ob = c →
  SoftSingletonV2__not_init (class_dict c st) = Some pending →
  if pending then
    (∀ e st1, SingletonMeta._original_init sl self a st = Raise e st1 →
       slot_init (cls_slots (SoftSingletonV2.__new__ c sl)) self a st
         = Raise e st1) ∧
    (∀ st1 ob1, SingletonMeta._original_init sl self a st = Return tt st1 →
       heap st1 !! self = Some ob1 → obj_class ob1 = c →
       slot_init (cls_slots (SoftSingletonV2.__new__ c sl)) self a st
         = Return tt
             (with_class_dict c (set_not_init false (class_dict c st1)) st1))
  else
    slot_init (cls_slots (SoftSingletonV2.__new__ c sl)) self a st
      = Return tt st.
Proof.
  intros Hself Hcls Hflag.
  assert (slot_init (cls_slots (SoftSingletonV2.__new__ c sl)) self a st
          = SoftSingletonV2._init_ (SingletonMeta._original_init sl) self a st)
    as ->.
  { by apply (installed_init_v2 SoftV2 c sl self a ob st). }
  assert (SoftSingletonV2._init_ (SingletonMeta._original_init sl) self a st =
          if pending then
            (SingletonMeta._original_init sl self a ;;;
             c' <- getclass self ;; setattr (set_not_init false) c') st
          else Return tt st) as ->.
  { unfold SoftSingletonV2._init_. unfold bind at 1.
    rewrite (getclass_eq _ _ _ Hself), Hcls. unfold bind at 1, getattr.
    rewrite Hflag. by destruct pending. }
  destruct pending; [| done]. split.
  - intros e st1 Horig. unfold bind. by rewrite Horig.
  - intros st1 ob1 Horig Hself1 Hcls1. unfold bind. rewrite Horig.
    by rewrite (getclass_eq _ _ _ Hself1), Hcls1.
Qed.

Lemma soft_v2_init_pending_until_it_returns_witness :
  let sl := Slots None (λ _ _, raise (Exn TypeError None)) None in
  let st := State [Object 0 true]
              {[0 := cls_dict (SoftSingletonV2.__new__ 0 sl)]} [] in
  slot_init (cls_slots (SoftSingletonV2.__new__ 0 sl)) 0 5 st
    = Raise (Exn TypeError None) st.
Proof.
  intros sl st.
  apply (soft_v2_init_pending_until_it_returns sl 0 0 5 (Object 0 true) st true
           eq_refl eq_refl eq_refl).
  reflexivity.
Defined.

(** * Properties of the time tracker *)

Section TimeTrackerFacts.

Import TimeTracker.

Context `{R : Runtime}.

Lemma formats_in (f : string) :
  is_Some (__FORMATS !! f) ↔ f ∈ ["ms"; "sec"; "min"; "hour"].
Proof.
  unfold __FORMATS. rewrite !lookup_insert, lookup_singleton.
  rewrite !elem_of_cons, elem_of_nil.
  repeat case_decide; subst; split; intros Hf;
    try (by eauto); try (by destruct Hf as [? [=]]).
  destruct Hf as [-> | [-> | [-> | [-> | []]]]]; congruence.
Qed.

Lemma verbose_ok_true (v : Z) :
  verbose_ok v = true ↔ (v = 0 ∨ v = 1 ∨ v = 2)%Z.
Proof. unfold verbose_ok. rewrite !orb_true_iff, !Z.eqb_eq. tauto. Qed.

Lemma init_valid (f : string) (v r : Z) (s : stream_val) (self : tracker) :
  __init__ f v r s = Ok self → valid self.
Proof.
  unfold __init__, valid.
  destruct (__FORMATS !! f) as [x|] eqn:Hf; [| done].
  destruct (verbose_ok v) eqn:Hv; [| done].
  destruct (rounding_ok r) eqn:Hr; [| done].
  destruct (has_write s) eqn:Hs; [| done].
  cbn. intros [= <-]. cbn. by rewrite Hf.
Qed.

(** Whatever a call does, also when it raises, the instance stays one
    that [__init__] would have accepted, and it has a start time exactly
    if it had one or the call is [__enter__]. *)
Lemma perform_valid (c : call) (self self' : tracker) (w w' : world)
    (e : option error) :
  valid self →
  perform c self w = (self', w', e) →
  valid self' ∧
  (is_Some (__start self') ↔
   is_Some (__start self) ∨ c = Enter).
Proof.
  intros (Hf & Hv & Hr & Hs).
  destruct self as [f v r s t st en]; cbn in *.
  destruct c; cbn.
  - intros [= <- <- <-]. split; [done |]. cbn. split; [by right | by eauto].
  - unfold __exit__; cbn. destruct st as [start|]; cbn.
    + destruct Hf as [factor Hfa]. rewrite Hfa.
      destruct s as [id | txt]; [| done]. unfold write; cbn.
      destruct (v =? 1)%Z; [| destruct (v =? 2)%Z];
        try destruct (write_error id _); cbn;
        intros [= <- <- <-]; (split; [split; [by eexists | done] | cbn]);
        (split; [by left | by eauto]).
    + intros [= <- <- <-]. split; [done |]. cbn.
      split; [by left | intros [H | [=]]; done].
  - intros [= <- <- <-]. split; [done |]. cbn.
    split; [by left | intros [H | [=]]; done].
  - unfold format_setter; cbn.
    destruct (__FORMATS !! new_format) as [nf|] eqn:Hnf; cbn.
    + destruct Hf as [factor Hfa]. rewrite Hfa. cbn.
      intros [= <- <- <-]. split; [split; [by eexists | done] |]. cbn.
      split; [by left | intros [H | [=]]; done].
    + intros [= <- <- <-]. split; [done |]. cbn.
      split; [by left | intros [H | [=]]; done].
  - unfold verbose_setter; cbn. destruct (verbose_ok value) eqn:Hval; cbn;
      intros [= <- <- <-]; (split; [done |]); cbn;
      (split; [by left | intros [H | [=]]; done]).
  - unfold rounding_setter; cbn. destruct (rounding_ok value) eqn:Hval; cbn;
      intros [= <- <- <-]; (split; [done |]); cbn;
      (split; [by left | intros [H | [=]]; done]).
  - unfold stream_setter; cbn. destruct (has_write stream) eqn:Hval; cbn;
      intros [= <- <- <-]; (split; [done |]); cbn;
      (split; [by left | intros [H | [=]]; done]).
Qed.

Lemma perform_all_valid (cs : list call) (self : tracker) (w : world) :
  valid self →
  valid (perform_all cs self w).1 ∧
  (is_Some (__start (perform_all cs self w).1) ↔
   is_Some (__start self) ∨ entered cs = true).
Proof.
  revert self w. induction cs as [|c cs IH]; intros self w Hvalid.
  { cbn. split; [done |]. split; [by left | by intros [H | [=]]]. }
  cbn [perform_all].
  destruct (perform c self w) as [[self1 w1] e] eqn:Hc.
  destruct (perform_valid c self self1 w w1 e Hvalid Hc) as [Hv1 Hs1].
  destruct (IH self1 w1 Hv1) as [Hv2 Hs2].
  split; [done |]. rewrite Hs2, Hs1. cbn [entered existsb].
  rewrite orb_true_iff. fold (entered cs).
  destruct c; split; intros H; try tauto;
    try (destruct H as [[H | [=]] | H]; eauto);
    try (destruct H as [H | [[=] | H]]; eauto).
Qed.

(** X9.  From construction on, whatever calls are made and whether they
    raise or not, the format stays one of the keys of [__FORMATS], the
    verbosity stays 0, 1 or 2, the rounding stays at least 1 and the
    stream keeps a [write] method. *)
Theorem tracker_stays_valid (time_format : string) (verbose rounding : Z)
    (stream : stream_val) (self : tracker) (cs : list call) (w : world) :
  __init__ time_format verbose rounding stream = Ok self →
  let self' := (perform_all cs self w).1 in
  __format self' ∈ ["ms"; "sec"; "min"; "hour"] ∧
  (__verbose self' = 0 ∨ __verbose self' = 1 ∨ __verbose self' = 2)%Z ∧
  (1 ≤ __round self')%Z ∧
  ∃ id, __stream self' = File id.
Proof.
  intros Hinit self'.
  destruct (perform_all_valid cs self w (init_valid _ _ _ _ _ Hinit))
    as [(Hf & Hv & Hr & Hs) _].
  fold self' in Hf, Hv, Hr, Hs.
  split; [by apply formats_in |]. split; [by apply verbose_ok_true |].
  split; [by apply Z.leb_le |].
  destruct (__stream self') as [id | txt]; [by exists id | done].
Qed.

Lemma init_not_started (f : string) (v r : Z) (s : stream_val)
    (self : tracker) :
  __init__ f v r s = Ok self → __start self = None.
Proof.
  unfold __init__.
  destruct (__FORMATS !! f); [| done].
  destruct (verbose_ok v); [| done].
  destruct (rounding_ok r); [| done].
  destruct (has_write s); [| done].
  cbn. by intros [= <-].
Qed.

(** [__exit__] on an entered tracker that [__init__] would have accepted:
    the time is added first, then the report is written, and only the
    stream's own [write] can raise. *)
Lemma exit_entered (self : tracker) (w : world) (start factor : num)
    (id : nat) :
  __start self = Some start →
  __FORMATS !! __format self = Some factor →
  __stream self = File id →
  let now := clock (time_calls w) in
  let diff := num_truediv (num_sub now start) factor in
  let total := num_add (__time self) diff in
  let self' :=
    Tracker (__format self) (__verbose self) (__round self) (__stream self)
            total (__start self) (Some now) in
  let reports := (__verbose self =? 1)%Z || (__verbose self =? 2)%Z in
  __exit__ self w =
    if reports then
      match write_error id (S (time_calls w)) with
      | Some e => (self', World (S (time_calls w)) (written w), Some e)
      | None =>
          (self',
           World (S (time_calls w))
             (written w ++
                [(id, if (__verbose self =? 1)%Z
                      then Elapsed total (__round self) (__format self)
                      else ElapsedAll total diff (__round self)
                                      (__format self))]),
           None)
      end
    else (self', World (S (time_calls w)) (written w), None).
Proof.
  intros Hstart Hf Hs. destruct self as [f v r s t st en]; cbn in *.
  subst st s. unfold __exit__; cbn. rewrite Hf. unfold write; cbn.
  destruct (v =? 1)%Z; [| destruct (v =? 2)%Z]; cbn;
    try destruct (write_error id (S (time_calls w))); done.
Qed.

(** X10.  [__exit__] needs the start time that only [__enter__] sets.  On
    an instance that has never been entered since its construction,
    whatever else was called, [__exit__] raises [AttributeError] for
    [__start], writes nothing and adds nothing to the accumulated time.
    Once [__enter__] has been called, [__exit__] raises nothing of its
    own, neither that [AttributeError] nor a [KeyError] from
    [__FORMATS]: at verbosity 0 it raises nothing, and at verbosity 1 or
    2 it raises exactly what the [write] of the stream raises, if that
    raises. *)
Theorem exit_raises_only_for_missing_start_or_write (time_format : string)
    (verbose rounding : Z) (stream : stream_val) (self : tracker)
    (cs : list call) (w w' : world) :
  __init__ time_format verbose rounding stream = Ok self →
  let self' := (perform_all cs self w).1 in
  let after := perform Exit self' w' in
  if entered cs then
    ∃ id, __stream self' = File id ∧
          after.2 = if (__verbose self' =? 0)%Z then None
                    else write_error id (S (time_calls w'))
  else
    after.2 = Some (AttributeError "_TimeTracker__start") ∧
    written after.1.2 = written w' ∧
    __time after.1.1 = __time self'.
Proof.
  intros Hinit self' after.
  destruct (perform_all_valid cs self w (init_valid _ _ _ _ _ Hinit))
    as [Hvalid Hstart].
  fold self' in Hvalid, Hstart.
  rewrite (init_not_started _ _ _ _ _ Hinit) in Hstart.
  unfold after. cbn [perform].
  destruct (entered cs).
  - destruct Hvalid as ([factor Hf] & Hv & _ & Hs).
    destruct (__stream self') as [id | txt] eqn:Hid; [| done].
    destruct (proj2 Hstart (or_intror eq_refl)) as [start Hst].
    exists id. split; [done |].
    rewrite (exit_entered self' w' start factor id Hst Hf Hid).
    apply verbose_ok_true in Hv as [-> | [-> | ->]]; cbn;
      try destruct (write_error id (S (time_calls w'))); done.
  - assert (__start self' = None) as Hnone.
    { destruct (__start self') eqn:Hs; [| done].
      assert (is_Some (Some n)) as Hsome by eauto.
      apply Hstart in Hsome as [[x [=]] | [=]]. }
    unfold __exit__; cbn. by rewrite Hnone.
Qed.


(** X12.  Reading a property and writing the value back: on a tracker
    reached from a successful construction by any calls, this succeeds
    and changes nothing for [verbose] and [rounding], but not for
    [stream].  The [stream] getter returns [str(stream)], a [str], which
    has no [write], so the [stream] setter raises [AssertionError] on it
    and the tracker is left as it was. *)
Theorem stream_getter_is_refused_by_setter (time_format : string)
    (verbose rounding : Z) (stream : stream_val) (self : tracker)
    (cs : list call) (w : world) :
  __init__ time_format verbose rounding stream = Ok self →
  let self' := (perform_all cs self w).1 in
  verbose_setter self' (verbose_getter self') = Ok self' ∧
  rounding_setter self' (rounding_getter self') = Ok self' ∧
  stream_setter self' (stream_getter self')
    = Err (AssertionError "stream must have write method") ∧
  ∀ w', perform (SetStream (stream_getter self')) self' w'
          = (self', w', Some (AssertionError "stream must have write method")).
Proof.
  intros Hinit self'.
  destruct (perform_all_valid cs self w (init_valid _ _ _ _ _ Hinit))
    as [(_ & Hv & Hr & _) _].
  fold self' in Hv, Hr.
  unfold verbose_setter, rounding_setter, verbose_getter, rounding_getter.
  rewrite Hv, Hr. by destruct self'.
Qed.

(** X13.  A tracker is not re-entrant.  [__enter__] overwrites the one
    start time, so when a block over a tracker contains another block
    over the same tracker, both [__exit__] calls measure from the inner
    [__enter__]: the reading taken by the outer [__enter__] is not used. *)
Theorem nested_blocks_measure_from_the_inner_enter (self : tracker)
    (w : world) (factor : num) (id : nat) :
  __FORMATS !! __format self = Some factor →
  __stream self = File id →
  let t := λ i, clock (time_calls w + i) in
  __time (perform_all [Enter; Enter; Exit; Exit] self w).1 =
    num_add
      (num_add (__time self) (num_truediv (num_sub (t 2) (t 1)) factor))
      (num_truediv (num_sub (t 3) (t 1)) factor).
Proof.
  intros Hf Hs t. unfold t. clear t.
  destruct self as [f v r s tm st en]; destruct w as [c wr]; cbn in *.
  subst s.
  replace (c + 1) with (S c) by lia. replace (c + 2) with (S (S c)) by lia.
  replace (c + 3) with (S (S (S c))) by lia.
  unfold __exit__, write; cbn. rewrite Hf; cbn.
  destruct (v =? 1)%Z eqn:Hv1; [| destruct (v =? 2)%Z eqn:Hv2]; cbn;
    repeat (try destruct (write_error id _); cbn;
            rewrite ?Hf, ?Hv1, ?Hv2; cbn);
    done.
Qed.

(** X17.  A call that raises has not changed how the tracker is set up
    and has written nothing: on a tracker reached from a successful
    construction, after a call that raised, the format, the verbosity,
    the rounding, the stream and the start time are what they were and
    no stream has received anything.  The accumulated time is unchanged
    too, with one exception: when the exception is that of the stream's
    [write] inside [__exit__], the elapsed time had already been added,
    and the report is lost. *)
Theorem failed_call_keeps_setup_and_writes_nothing (time_format : string)
    (verbose rounding : Z) (stream : stream_val) (self : tracker)
    (cs : list call) (w0 w : world) (c : call) :
  __init__ time_format verbose rounding stream = Ok self →
  let self' := (perform_all cs self w0).1 in
  let after := perform c self' w in
  is_Some after.2 →
  __format after.1.1 = __format self' ∧
  __verbose after.1.1 = __verbose self' ∧
  __round after.1.1 = __round self' ∧
  __stream after.1.1 = __stream self' ∧
  __start after.1.1 = __start self' ∧
  written after.1.2 = written w ∧
  (__time after.1.1 = __time self' ∨
   c = Exit ∧
   ∃ id start factor,
     __stream self' = File id ∧
     __start self' = Some start ∧
     __FORMATS !! __format self' = Some factor ∧
     after.2 = write_error id (S (time_calls w)) ∧
     __time after.1.1 =
       num_add (__time self')
         (num_truediv (num_sub (clock (time_calls w)) start) factor)).
Proof.
  intros Hinit self' after.
  destruct (perform_all_valid cs self w0 (init_valid _ _ _ _ _ Hinit))
    as [Hvalid _].
  fold self' in Hvalid. unfold after. clearbody self'.
  destruct c; cbn [perform].
  - destruct (__enter__ self' w) as [s1 w1]. by intros [e [=]].
  - destruct (__start self') as [start|] eqn:Hstart.
    + destruct Hvalid as ([factor Hf] & _ & _ & Hs).
      destruct (__stream self') as [id | txt] eqn:Hid; [| done].
      rewrite (exit_entered self' w start factor id Hstart Hf Hid).
      destruct (_ || _); [| by intros [e [=]]].
      destruct (write_error id (S (time_calls w))) as [e|] eqn:He;
        [| by intros [e [=]]].
      intros _. cbn. rewrite Hid, Hstart. repeat split; try done.
      right. split; [done |]. by exists id, start, factor.
    + unfold __exit__; cbn. rewrite Hstart. cbn. intros _.
      repeat split; try done. by left.
  - by intros [e [=]].
  - destruct (format_setter self' new_format); cbn;
      [by intros [e [=]] | intros _; repeat split; try done; by left].
  - destruct (verbose_setter self' value); cbn;
      [by intros [e [=]] | intros _; repeat split; try done; by left].
  - destruct (rounding_setter self' value); cbn;
      [by intros [e [=]] | intros _; repeat split; try done; by left].
  - destruct (stream_setter self' stream0); cbn;
      [by intros [e [=]] | intros _; repeat split; try done; by left].
Qed.

End TimeTrackerFacts.

Section TimeTrackerWitnesses.

Import TimeTracker.

Lemma tracker_stays_valid_witness :
  let self := @Tracker symbolic "sec" 1 3 (File 0) Int0 None None in
  let cs := [SetFormat "week"; Enter; SetVerbose 2; Exit; SetRounding 0] in
  __format (perform_all cs self (@World symbolic 0 [])).1
    ∈ ["ms"; "sec"; "min"; "hour"].
Proof.
  intros self cs.
  exact (proj1 (tracker_stays_valid (R := symbolic) "sec" 1 3 (File 0) self cs
                  (@World symbolic 0 []) eq_refl)).
Defined.

Lemma stream_getter_is_refused_by_setter_witness :
  let self := @Tracker symbolic "sec" 1 3 (File 0) Int0 None None in
  let self' := (perform_all [Enter; SetVerbose 2; Exit] self (World 0 [])).1 in
  verbose_setter self' (verbose_getter self') = Ok self' ∧
  rounding_setter self' (rounding_getter self') = Ok self' ∧
  stream_setter self' (stream_getter self')
    = Err (AssertionError "stream must have write method") ∧
  ∀ w', perform (SetStream (stream_getter self')) self' w'
          = (self', w', Some (AssertionError "stream must have write method")).
Proof.
  intros self.
  exact (stream_getter_is_refused_by_setter (R := symbolic) "sec" 1 3 (File 0)
           self [Enter; SetVerbose 2; Exit] (World 0 []) eq_refl).
Defined.

Lemma nested_blocks_measure_from_the_inner_enter_witness :
  let self := @Tracker symbolic "ms" 0 2 (File 0) Int0 None None in
  __time (@perform_all symbolic [Enter; Enter; Exit; Exit] self (World 0 [])).1
    = Add (Add Int0 (TrueDiv (Sub (Clock 2) (Clock 1)) (Literal "0.001")))
          (TrueDiv (Sub (Clock 3) (Clock 1)) (Literal "0.001")).
Proof.
  intros self.
  exact (nested_blocks_measure_from_the_inner_enter (R := symbolic) self
           (World 0 []) (Literal "0.001") 0 eq_refl eq_refl).
Defined.

Lemma exit_raises_only_for_missing_start_or_write_witness :
  let self := @Tracker symbolic_closed "sec" 1 3 (File 9) Int0 None None in
  let w := @World symbolic_closed 0 [] in
  (let self' := (perform_all [SetFormat "min"; Reset] self w).1 in
   let after := perform Exit self' w in
   after.2 = Some (AttributeError "_TimeTracker__start") ∧
   written after.1.2 = written w ∧
   __time after.1.1 = __time self') ∧
  (let self' := (perform_all [Enter; SetFormat "min"] self w).1 in
   let after := perform Exit self' (@World symbolic_closed 1 []) in
   ∃ id, __stream self' = File id ∧
         after.2 = if (__verbose self' =? 0)%Z then None
                   else @write_error symbolic_closed id 2).
Proof.
  intros self w. split.
  - exact (exit_raises_only_for_missing_start_or_write (R := symbolic_closed)
             "sec" 1 3 (File 9) self [SetFormat "min"; Reset] w w eq_refl).
  - exact (exit_raises_only_for_missing_start_or_write (R := symbolic_closed)
             "sec" 1 3 (File 9) self [Enter; SetFormat "min"] w (World 1 [])
             eq_refl).
Defined.


Lemma failed_call_keeps_setup_and_writes_nothing_witness :
  let self := @Tracker symbolic_closed "sec" 1 3 (File 9) Int0 None None in
  let self' := (perform_all [Enter] self (World 0 [])).1 in
  let after := perform Exit self' (World 1 []) in
  after.2 = Some (UserError "ValueError") ∧
  __format after.1.1 = "sec" ∧
  __stream after.1.1 = File 9 ∧
  written after.1.2 = [] ∧
  __time after.1.1 =
    Add Int0 (TrueDiv (Sub (Clock 1) (Clock 0)) (Literal "1.0")).
Proof.
  intros self self' after.
  destruct (failed_call_keeps_setup_and_writes_nothing (R := symbolic_closed)
              "sec" 1 3 (File 9) self [Enter] (World 0 []) (World 1 []) Exit
              eq_refl)
    as (Hf & _ & _ & Hs & _ & Hw & _).
  { vm_compute. eauto. }
  fold self' after in Hf, Hs, Hw.
  split; [reflexivity |]. split; [exact Hf |]. split; [exact Hs |].
  split; [exact Hw | reflexivity].
Defined.

End TimeTrackerWitnesses.

(** * Properties of the periodic worker *)

Section SimpleWorkerFacts.

Import SimpleWorker.

Lemma init_worker (func : callable) (interval : nat) (self : worker) :
  __init__ func interval = inr self →
  __stopped self = false ∧ __interval self = interval ∧
  __get_func_weakref func = inr (__func self).
Proof.
  unfold __init__. destruct (__get_func_weakref func) as [e | g]; [done |].
  by intros [= <-].
Qed.

(** With everything it needs alive, the weak wrapper makes the call; it
    answers [True] when the call returns and lets through what the call
    raises. *)
Lemma func_weakref_alive (func : callable) (g : func_weakref)
    (b : option error) (w : world) :
  __get_func_weakref func = inr g →
  (∀ o, o ∈ needed func → o ∉ gone w) →
  g b w =
    let w' := World (gone w) (called w ++ [the_call func]) in
    match b with
    | Some e => Raise e w'
    | None => Return true w'
    end.
Proof.
  intros Hg Halive.
  destruct func as [f | o f | x | x]; cbn in Hg; [| | done | done];
    injection Hg as <-; cbn in Halive; unfold deref, call; cbv beta.
  - assert (f ∉ gone w) by (apply Halive, elem_of_cons; by left).
    repeat case_decide; try done. by destruct b.
  - assert (o ∉ gone w) by (apply Halive, elem_of_cons; by left).
    assert (f ∉ gone w).
    { apply Halive, elem_of_cons. right. apply elem_of_cons. by left. }
    repeat case_decide; try done. by destruct b.
Qed.

(** With the watched object gone, it calls nothing and answers [False]. *)
Lemma func_weakref_gone (func : callable) (g : func_weakref)
    (b : option error) (w : world) :
  __get_func_weakref func = inr g →
  watched func ∈ gone w →
  g b w = Return false w.
Proof.
  intros Hg Hgone.
  destruct func as [f | o f | x | x]; cbn in Hg; [| | done | done];
    injection Hg as <-; cbn in Hgone; unfold deref; cbv beta;
    by case_decide.
Qed.

Lemma sleep_harmless (func : callable) (ev : event) (self : worker)
    (w : world) :
  harmless func ev = true →
  (∀ o, o ∈ needed func → o ∉ gone w) →
  (sleep ev self w).1 = self ∧
  behaviour ev = None ∧
  called (sleep ev self w).2 = called w ∧
  ∀ o, o ∈ needed func → o ∉ gone (sleep ev self w).2.
Proof.
  intros Hev Halive. destruct ev as [| | x | e]; cbn in *;
    [done | done | | done].
  apply bool_decide_eq_true in Hev.
  split; [done |]. split; [done |]. split; [done |].
  intros o Ho [Hin | Hin]%elem_of_union.
  - apply elem_of_singleton in Hin as ->. by apply Hev.
  - by apply (Halive o Ho).
Qed.

Lemma run_harmless (func : callable) (schedule rest : list event)
    (self : worker) (w : world) :
  __stopped self = false →
  __get_func_weakref func = inr (__func self) →
  (∀ o, o ∈ needed func → o ∉ gone w) →
  forallb (harmless func) schedule = true →
  ∃ w',
    run (schedule ++ rest) self w = run rest self w' ∧
    called w' = called w ++ replicate (length schedule) (the_call func) ∧
    ∀ o, o ∈ needed func → o ∉ gone w'.
Proof.
  intros Hrun Hg. revert w.
  induction schedule as [|ev schedule IH]; intros w Halive Hsched.
  { exists w. cbn. by rewrite app_nil_r. }
  cbn [forallb] in Hsched. apply andb_true_iff in Hsched as [Hev Hsched].
  destruct (sleep_harmless func ev self w Hev Halive)
    as (Hself & Hb & Hcalled & Halive1).
  cbn [app run]. destruct (sleep ev self w) as [self1 w1]; cbn in *. subst self1.
  rewrite Hrun, Hb.
  rewrite (func_weakref_alive func _ None w1 Hg Halive1).
  destruct (IH (World (gone w1) (called w1 ++ [the_call func])))
    as (w' & Hrun' & Hcalled' & Halive'); [done | done |].
  exists w'. split; [done |]. split; [| done].
  rewrite Hcalled'. cbn [called length replicate].
  rewrite Hcalled, <- app_assoc. done.
Qed.

(** X14.  The loop of [run] calls its target once after every sleep and
    leaves by its [break] at the first sleep during which the worker was
    told to stop or the watched object (the function, or the object of a
    bound method) was collected.  Suppose that during the first [n] sleeps
    neither happened, every call of the target returned and, for a bound
    method, its function object was not collected either.  Then the
    target has been called exactly [n] times when the loop ends, it is not
    called after the last sleep, and [__stopped] is set on the way out. *)
Theorem worker_stops_at_first_stop_or_collection (func : callable)
    (interval : nat) (self : worker) (w : world) (before : list event)
    (ev : event) (after : list event) :
  __init__ func interval = inr self →
  (∀ o, o ∈ needed func → o ∉ gone w) →
  forallb (harmless func) before = true →
  ending func ev = true →
  ∃ w',
    run (before ++ ev :: after) self w
      = Exited (Worker interval (__func self) true) w' ∧
    called w' = called w ++ replicate (length before) (the_call func).
Proof.
  intros Hinit Halive Hbefore Hev.
  destruct (init_worker func interval self Hinit) as (Hrun & Hint & Hg).
  destruct (run_harmless func before (ev :: after) self w Hrun Hg Halive Hbefore)
    as (w1 & -> & Hcalled & Halive1).
  cbn [run]. destruct ev as [| | x | e]; cbn in Hev; [done | | | done].
  - cbn. exists w1. by rewrite Hint.
  - apply bool_decide_eq_true in Hev as ->. cbn. rewrite Hrun.
    rewrite (func_weakref_gone func _ _ _ Hg).
    2:{ cbn. apply elem_of_union. left. by apply elem_of_singleton. }
    eexists. rewrite Hint. split; [done |]. done.
Qed.

(** X15.  What keeps the loop going, and what a raising target does to
    it.  As long as the worker is not told to stop, no object the call
    needs is collected and the calls of the target return, [run] is still
    looping, however many sleeps have passed, and has called the target
    exactly once per sleep.  If the target then raises at a wake-up, the
    exception leaves [run] at once, with that one call made: the loop is
    over although nobody stopped the worker, and [__stopped] is still
    clear. *)
Theorem worker_keeps_calling_until_the_target_raises (func : callable)
    (interval : nat) (self : worker) (w : world) (schedule : list event) :
  __init__ func interval = inr self →
  (∀ o, o ∈ needed func → o ∉ gone w) →
  forallb (harmless func) schedule = true →
  (∃ w',
     run schedule self w = Sleeping self w' ∧
     called w' = called w ++ replicate (length schedule) (the_call func)) ∧
  (∀ e after, ∃ w',
     run (schedule ++ Raises e :: after) self w = Crashed e self w' ∧
     called w' = called w ++ replicate (S (length schedule)) (the_call func) ∧
     __stopped self = false).
Proof.
  intros Hinit Halive Hsched.
  destruct (init_worker func interval self Hinit) as (Hrun & Hint & Hg).
  split.
  - destruct (run_harmless func schedule [] self w Hrun Hg Halive Hsched)
      as (w1 & Hrun1 & Hcalled & _).
    rewrite app_nil_r in Hrun1. exists w1. by rewrite Hrun1.
  - intros e after.
    destruct (run_harmless func schedule (Raises e :: after) self w Hrun Hg
                Halive Hsched) as (w1 & -> & Hcalled & Halive1).
    cbn [run sleep behaviour]. rewrite Hrun.
    rewrite (func_weakref_alive func _ (Some e) w1 Hg Halive1). cbn.
    eexists. split; [done |]. split; [| done]. cbn.
    rewrite Hcalled, <- app_assoc. f_equal.
    change (the_call func :: replicate (length schedule) (the_call func))
      with (replicate (S (length schedule)) (the_call func)).
    by rewrite replicate_S_end.
Qed.

(** X16.  A bound method is held through two weak references, one on its
    object and one on its function, and only the first is tested.  If
    the function is collected while the object lives, the next wake-up
    calls [None]: [TypeError] leaves [run], nothing has been called and
    [__stopped] is still clear. *)
Theorem worker_crashes_when_the_method_is_collected (o f : nat)
    (interval : nat) (self : worker) (w : world) (before after : list event) :
  __init__ (BoundMethod o f) interval = inr self →
  o ≠ f →
  (∀ x, x ∈ needed (BoundMethod o f) → x ∉ gone w) →
  forallb (harmless (BoundMethod o f)) before = true →
  ∃ w',
    run (before ++ Collect f :: after) self w
      = Crashed (TypeError "'NoneType' object is not callable") self w' ∧
    called w' = called w ++
                replicate (length before) (the_call (BoundMethod o f)) ∧
    __stopped self = false.
Proof.
  intros Hinit Hne Halive Hbefore.
  destruct (init_worker _ interval self Hinit) as (Hrun & Hint & Hg).
  destruct (run_harmless _ before (Collect f :: after) self w Hrun Hg Halive
              Hbefore) as (w1 & -> & Hcalled & Halive1).
  cbn [run sleep behaviour]. rewrite Hrun.
  exists (World ({[f]} ∪ gone w1) (called w1)). split; [| done].
  cbn in Hg. injection Hg as Hg. rewrite <- Hg.
  unfold deref, call; cbn.
  assert (o ∉ {[f]} ∪ gone w1).
  { intros [Hin | Hin]%elem_of_union.
    - by apply elem_of_singleton in Hin.
    - apply (Halive1 o); [apply elem_of_cons; by left | done]. }
  assert (f ∈ {[f]} ∪ gone w1).
  { apply elem_of_union. left. by apply elem_of_singleton. }
  by repeat case_decide.
Qed.

End SimpleWorkerFacts.

Section SimpleWorkerWitnesses.

Import SimpleWorker.

Lemma worker_stops_at_first_stop_or_collection_witness :
  ∃ self w',
    __init__ (BoundMethod 0 1) 2 = inr self ∧
    run [Idle; Collect 7; Collect 0; Idle] self (World ∅ [])
      = Exited (Worker 2 (__func self) true) w' ∧
    called w' = [(1, [Some 0]); (1, [Some 0])].
Proof.
  eexists _. 
  destruct (worker_stops_at_first_stop_or_collection (BoundMethod 0 1) 2 _
              (World ∅ []) [Idle; Collect 7] (Collect 0) [Idle] eq_refl)
    as (w' & Hrun & Hcalled).
  - intros o _. cbn. apply not_elem_of_empty.
  - vm_compute. reflexivity.
  - reflexivity.
  - exists w'. split; [reflexivity |]. split; [exact Hrun | exact Hcalled].
Defined.

Lemma worker_keeps_calling_until_the_target_raises_witness :
  ∃ self w' w'',
    __init__ (Function 4) 2 = inr self ∧
    run [Idle; Idle; Collect 9] self (World ∅ []) = Sleeping self w' ∧
    called w' = [(4, []); (4, []); (4, [])] ∧
    run [Idle; Idle; Collect 9; Raises (UserError "ValueError"); Kill] self
        (World ∅ [])
      = Crashed (UserError "ValueError") self w'' ∧
    called w'' = [(4, []); (4, []); (4, []); (4, [])] ∧
    __stopped self = false.
Proof.
  eexists _.
  destruct (worker_keeps_calling_until_the_target_raises (Function 4) 2 _
              (World ∅ []) [Idle; Idle; Collect 9] eq_refl)
    as [(w' & Hrun & Hcalled) Hraise].
  - intros o _. cbn. apply not_elem_of_empty.
  - vm_compute. reflexivity.
  - destruct (Hraise (UserError "ValueError") [Kill])
      as (w'' & Hrun' & Hcalled' & Hstopped).
    exists w', w''. split; [reflexivity |].
    split; [exact Hrun |]. split; [exact Hcalled |].
    split; [exact Hrun' |]. split; [exact Hcalled' | exact Hstopped].
Defined.

Lemma worker_crashes_when_the_method_is_collected_witness :
  ∃ self w',
    __init__ (BoundMethod 0 1) 2 = inr self ∧
    run [Idle; Collect 1] self (World ∅ [])
      = Crashed (TypeError "'NoneType' object is not callable") self w' ∧
    called w' = [(1, [Some 0])].
Proof.
  eexists _.
  destruct (worker_crashes_when_the_method_is_collected 0 1 2 _
              (World ∅ []) [Idle] [] eq_refl)
    as (w' & Hrun & Hcalled & _).
  - lia.
  - intros o _. cbn. apply not_elem_of_empty.
  - reflexivity.
  - exists w'. split; [reflexivity |]. split; [exact Hrun | exact Hcalled].
Defined.

End SimpleWorkerWitnesses.
